(** * gcpbox: the metadata helper and the Spanner query-stats copy service

    A shallow embedding of [metadata/metadata.go] and
    [spanner/query_stats.go], followed by the properties proved about
    them.  Go strings are byte strings ([string], a list of [ascii]),
    Go's [int64] is [Z], a [(T, error)] result is a [result T], the process
    environment is a finite map, and the records behind the
    [*QueryStat] pointers live in an explicit heap. *)

From Stdlib Require Import ZArith Lia Ascii String.
From Stdlib Require Import Floats.SpecFloat.
From stdpp Require Import base option list gmap strings.

Local Open Scope Z_scope.

(* ===================================================================== *)
(** * Part I: the embedding *)
(* ===================================================================== *)

(** ** Errors and results *)

(** Modelled from the spec: the constructors [NewErrNotFound] and
    [NewErrInvalidArgument] are called by [metadata.go] but declared in a
    file of the package that is not part of the sources at hand.  The spec
    names the two kinds [NotFound] and [InvalidArgument]; each carries the
    message, the key/value context and the optional cause it is built
    from.  The other constructors are the errors the two files build with
    [fmt.Errorf], [xerrors.Errorf] (with [%w]) and [errors.WithStack], and
    [ErrExternal] stands for an error handed back by a client library. *)
#[warnings="-register-all"]
Inductive error : Type :=
| ErrNotFound (msg : string) (kv : list (string * string)) (cause : option error)
| ErrInvalidArgument (msg : string) (kv : list (string * string)) (cause : option error)
| Errorf (msg : string)
| Wrapf (msg : string) (cause : error)
| WithStack (cause : error)
| ErrExternal (descr : string).

Definition NewErrNotFound := ErrNotFound.
Definition NewErrInvalidArgument := ErrInvalidArgument.

Definition is_NotFound (e : error) : bool :=
  match e with ErrNotFound _ _ _ => true | _ => false end.

Definition is_InvalidArgument (e : error) : bool :=
  match e with ErrInvalidArgument _ _ _ => true | _ => false end.

(** A Go call returning [(T, error)]; [Panic] is a run-time panic (index out
    of range, nil dereference). *)
Inductive result (A : Type) : Type :=
| OK (a : A)
| Err (e : error)
| Panic (msg : string).
Arguments OK {A} a.
Arguments Err {A} e.
Arguments Panic {A} msg.

Definition fails_with {A} (P : error -> bool) (r : result A) : Prop :=
  exists e, r = Err e /\ P e = true.

(** ** [strconv] and [strings]: the library functions the code relies on *)

Module strconv.

(** ['0' + d] *)
Definition digit_char (d : Z) : ascii := ascii_of_nat (48 + Z.to_nat d).

(** The digit loop of [formatBits] in base 10: the buffer is filled from
    its end, [u] loses its last digit at each turn.  [fuel] bounds the
    number of turns. *)
Fixpoint formatBits_loop (fuel : nat) (u : Z) (buf : string) : string :=
  let q := u / 10 in
  let buf' := String (digit_char (u - q * 10)) buf in
  match fuel with
  | O => buf'
  | S fuel' => if 10 <=? u then formatBits_loop fuel' q buf' else buf'
  end.

(** A number below [2 ^ (log2 u + 1)] has at most [log2 u + 1] decimal
    digits, so this many turns always suffice. *)
Definition formatBits (u : Z) : string :=
  formatBits_loop (Z.to_nat (Z.log2 u)) u "".

(** [strconv.FormatInt(i, 10)], which is what [%v] prints for an [int64]. *)
Definition FormatInt (i : Z) : string :=
  if i <? 0 then String "-" (formatBits (- i)) else formatBits i.

(** Reading a decimal numeral back: the value of a digit, of a digit
    string, and of an optionally signed numeral. *)
Definition digit_val (c : ascii) : option Z :=
  let n := Z.of_nat (nat_of_ascii c) in
  if (48 <=? n) && (n <=? 57) then Some (n - 48) else None.

Fixpoint digits_val (s : string) (acc : Z) : option Z :=
  match s with
  | EmptyString => Some acc
  | String c r =>
      match digit_val c with
      | Some d => digits_val r (acc * 10 + d)
      | None => None
      end
  end.

Definition unsigned_val (s : string) : option Z :=
  match s with
  | EmptyString => None
  | _ => digits_val s 0
  end.

Definition decimal_val (s : string) : option Z :=
  match s with
  | EmptyString => None
  | String c r =>
      if Ascii.eqb c "-" then
        match unsigned_val r with
        | Some v => Some (- v)
        | None => None
        end
      else unsigned_val s
  end.

(** A numeral is canonical when it has no redundant zero: ["0"] itself,
    or an optional [-] and then a digit other than [0] in front. *)
Definition nonzero_digit (c : ascii) : bool :=
  let n := nat_of_ascii c in ((49 <=? n) && (n <=? 57))%nat.

Definition canonical (s : string) : bool :=
  match s with
  | EmptyString => false
  | String c r =>
      if Ascii.eqb c "-" then
        match r with
        | String d _ => nonzero_digit d
        | EmptyString => false
        end
      else if Ascii.eqb c "0" then
        match r with
        | EmptyString => true
        | _ => false
        end
      else nonzero_digit c
  end.

End strconv.

Module strings.

(** [strings.Split(s, sep)] for a separator of one byte, the only kind
    the code uses ("@" and "/"): the pieces of [s] between the
    occurrences of [sep], in order; always at least one piece. *)
Fixpoint Split (s : string) (sep : ascii) : list string :=
  match s with
  | EmptyString => [EmptyString]
  | String c r =>
      if Ascii.eqb c sep then EmptyString :: Split r sep
      else
        match Split r sep with
        | x :: xs => String c x :: xs
        | [] => [String c EmptyString]
        end
  end.

(** [strings.Count(s, sep)] for a separator of one byte. *)
Fixpoint Count (s : string) (sep : ascii) : nat :=
  match s with
  | EmptyString => O
  | String c r => if Ascii.eqb c sep then S (Count r sep) else Count r sep
  end.

(** The part of [s] after its last [sep] (all of [s] when it has none),
    and the part before its first [sep]. *)
Fixpoint after_last (s : string) (sep : ascii) : string :=
  match s with
  | EmptyString => EmptyString
  | String c r =>
      if (0 <? Count r sep)%nat then after_last r sep
      else if Ascii.eqb c sep then r
      else s
  end.

Fixpoint before_first (s : string) (sep : ascii) : string :=
  match s with
  | EmptyString => EmptyString
  | String c r => if Ascii.eqb c sep then EmptyString else String c (before_first r sep)
  end.

End strings.

(** ** [metadata/metadata.go] *)

Module metadata.

(** What one HTTP GET can come to, seen from [getMetadata]: each of its
    three library calls may fail, else there is a status code and a body. *)
Inductive http_outcome : Type :=
| NewRequestError (e : error)
| DoError (e : error)
| ReadAllError (e : error)
| Response (StatusCode : Z) (body : string).

(** Everything outside the process that the package reads.  Nothing here
    is written by the code, so one value describes a whole call. *)
Record World : Type := {
  OnGCE : bool;                                   (* metadata.OnGCE() *)
  environ : gmap string string;                   (* the process environment *)
  metadata_ProjectID : result string;             (* metadata.ProjectID() *)
  metadata_InstanceAttributeValue : string -> result string;
  metadata_ProjectAttributeValue : string -> result string;
  http_get : string -> list (string * string) -> http_outcome
}.

(** [os.Getenv]: the value, or the empty string when the variable is not
    present. *)
Definition Getenv (w : World) (key : string) : string :=
  default "" (environ w !! key).

Definition StatusOK : Z := 200.

Definition getMetadata (w : World) (path : string) : result string :=
  match http_get w ("http://metadata.google.internal/computeMetadata/v1/instance/" +:+ path)
                   [("Metadata-Flavor", "Google")] with
  | NewRequestError e => Err (Wrapf ("failed http.NewRequest. path=" +:+ path +:+ " : ") e)
  | DoError e => Err (Wrapf ("failed http.SendReq. path=" +:+ path +:+ " : ") e)
  | ReadAllError e => Err (Wrapf ("failed read response.Body. path=" +:+ path +:+ " : ") e)
  | Response code b =>
      if negb (code =? StatusOK)
      then Err (Errorf ("metadata server response is " +:+ strconv.FormatInt code +:+ ":" +:+ b))
      else OK b
  end.

Definition OnGCP (w : World) : bool := OnGCE w.

Definition ProjectID (w : World) : result string :=
  if negb (OnGCE w) then
    let p := Getenv w "GOOGLE_CLOUD_PROJECT" in
    if negb (String.eqb p "") then OK p
    else
      let p := Getenv w "GCLOUD_PROJECT" in
      if negb (String.eqb p "") then OK p
      else Err (NewErrNotFound
                  "project id environment valiable is not found. plz set $GOOGLE_CLOUD_PROJECT"
                  [] None)
  else
    match metadata_ProjectID w with
    | Err e => Err (Wrapf "failed get project id from metadata server: " e)
    | Panic m => Panic m
    | OK projectID =>
        if String.eqb projectID "" then Err (NewErrNotFound "project id is not found" [] None)
        else OK projectID
    end.

Definition ServiceAccountEmail (w : World) : result string :=
  if negb (OnGCE w) then OK (Getenv w "GCLOUD_SERVICE_ACCOUNT")
  else
    match getMetadata w "service-accounts/default/email" with
    | Err e => Err (Wrapf "failed get ServiceAccountEmail : " e)
    | Panic m => Panic m
    | OK sa => OK sa
    end.

Definition ServiceAccountName (w : World) : result string :=
  match ServiceAccountEmail w with
  | Err e => Err e
  | Panic m => Panic m
  | OK sa =>
      let l := strings.Split sa "@" in
      if negb (length l =? 2)%nat
      then Err (Errorf ("invalid ServiceAccountEmail. email=" +:+ sa))
      else
        match l !! 0%nat with
        | Some x => OK x
        | None => Panic "index out of range"
        end
  end.

Definition ServiceAccountID (w : World) : result string :=
  match ServiceAccountEmail w with
  | Err e => Err e
  | Panic m => Panic m
  | OK sa =>
      match ProjectID w with
      | Err e => Err e
      | Panic m => Panic m
      | OK pID => OK ("projects/" +:+ pID +:+ "/serviceAccounts/" +:+ sa)
      end
  end.

Definition required_format : string :=
  "required format : projects/[NUMERIC_PROJECT_ID]/zones/[ZONE]".

Definition ExtractionRegion (metaZone : string) : result string :=
  let l := strings.Split metaZone "/" in
  if (length l <? 1)%nat
  then Err (NewErrInvalidArgument required_format [("input_argument", metaZone)] None)
  else
    match l !! (length l - 1)%nat with
    | None => Panic "index out of range"
    | Some v =>
        if (String.length v <? 3)%nat
        then Err (NewErrInvalidArgument required_format [("input_argument", metaZone)] None)
        else OK (substring 0 (String.length v - 2) v)
    end.

Definition ExtractionZone (metaZone : string) : result string :=
  let l := strings.Split metaZone "/" in
  if (length l <? 1)%nat
  then Err (NewErrInvalidArgument required_format [("input_argument", metaZone)] None)
  else
    match l !! (length l - 1)%nat with
    | None => Panic "index out of range"
    | Some v => OK v
    end.

Definition Region (w : World) : result string :=
  if negb (OnGCE w) then OK (Getenv w "INSTANCE_REGION")
  else
    match getMetadata w "zone" with
    | Err e => Err (Wrapf "failed get Zone : " e)
    | Panic m => Panic m
    | OK zone => ExtractionRegion zone
    end.

Definition Zone (w : World) : result string :=
  if negb (OnGCE w) then OK (Getenv w "INSTANCE_ZONE")
  else
    match getMetadata w "zone" with
    | Err e => Err (Wrapf "failed get Zone : " e)
    | Panic m => Panic m
    | OK zone => ExtractionZone zone
    end.

Definition GetInstanceAttribute (w : World) (key : string) : result string :=
  if negb (OnGCE w) then OK (Getenv w ("INSTANCE_" +:+ key))
  else metadata_InstanceAttributeValue w key.

Definition GetProjectAttribute (w : World) (key : string) : result string :=
  if negb (OnGCE w) then OK (Getenv w ("PROJECT_" +:+ key))
  else metadata_ProjectAttributeValue w key.

End metadata.

(** ** [text/template], as far as the query template needs it *)

Module template.

(** A parsed template: literal text and field actions [{{.Name}}]. *)
Inductive node : Type :=
| TextNode (text : string)
| FieldNode (name : string).

Definition Template : Type := list node.

Fixpoint rev_append (s acc : string) : string :=
  match s with
  | EmptyString => acc
  | String c r => rev_append r (String c acc)
  end.

Definition rev (s : string) : string := rev_append s "".

Fixpoint ltrim (s : string) : string :=
  match s with
  | String " " r => ltrim r
  | _ => s
  end.

Definition trim (s : string) : string := rev (ltrim (rev (ltrim s))).

Definition is_ident_char (c : ascii) : bool :=
  let n := nat_of_ascii c in
  ((65 <=? n) && (n <=? 90) || (97 <=? n) && (n <=? 122)
   || (48 <=? n) && (n <=? 57) || (n =? 95))%nat.

Fixpoint all_ident (s : string) : bool :=
  match s with
  | EmptyString => true
  | String c r => is_ident_char c && all_ident r
  end.

(** The inside of [{{ ... }}].  Only a field of the data, [.Name], is
    modelled; any other action is reported as a parse error. *)
Definition parse_action (a : string) : result node :=
  match trim a with
  | String "." (String c r) =>
      if all_ident (String c r) then OK (FieldNode (String c r))
      else Err (Errorf "template: unsupported action")
  | _ => Err (Errorf "template: unsupported action")
  end.

Definition cons_text (t : string) (ns : list node) : list node :=
  match t with
  | EmptyString => ns
  | _ => TextNode t :: ns
  end.

(** One pass over the source: [in_action] tells on which side of the
    delimiters we are, [acc] holds the bytes read since the last one,
    most recent first. *)
Fixpoint lex (in_action : bool) (acc : string) (s : string) : result Template :=
  match s with
  | EmptyString =>
      if in_action then Err (Errorf "template: unclosed action")
      else OK (cons_text (rev acc) [])
  | String c r =>
      match in_action, c, r with
      | false, "{"%char, String "{" r' =>
          match lex true "" r' with
          | OK ns => OK (cons_text (rev acc) ns)
          | other => other
          end
      | true, "}"%char, String "}" r' =>
          match parse_action (rev acc) with
          | OK n =>
              match lex false "" r' with
              | OK ns => OK (n :: ns)
              | other => other
              end
          | Err e => Err e
          | Panic m => Panic m
          end
      | _, _, _ => lex in_action (String c acc) r
      end
  end.

(** [template.New(name).Parse(text)] *)
Definition Parse (text : string) : result Template := lex false "" text.

(** [t.Execute(&buf, data)]: the text written to the buffer.  [data] is
    given by its exported fields; text/template writes a string field as
    it is, without escaping. *)
Fixpoint Execute (t : Template) (data : string -> option string) : result string :=
  match t with
  | [] => OK ""
  | TextNode text :: t' =>
      match Execute t' data with
      | OK out => OK (text +:+ out)
      | other => other
      end
  | FieldNode name :: t' =>
      match data name with
      | None => Err (Errorf ("template: can't evaluate field " +:+ name))
      | Some v =>
          match Execute t' data with
          | OK out => OK (v +:+ out)
          | other => other
          end
      end
  end.

End template.

(** ** [spanner/query_stats.go] *)

Module spanner.

Definition queryStatsTopMinute : string := "
SELECT
  text,
  text_truncated,
  text_fingerprint,
  interval_end,
  execution_count,
  avg_latency_seconds,
  avg_rows,
  avg_bytes,
  avg_rows_scanned,
  avg_cpu_seconds
FROM {{.Table}}
".

Definition queryStatsTopMinuteTable : string := "spanner_sys.query_stats_top_minute".
Definition queryStatsTop10MinuteTable : string := "spanner_sys.query_stats_top_10minute".
Definition queryStatsTopHourTable : string := "spanner_sys.query_stats_top_hour".

Record QueryStatsParam : Type := { Table : string }.

(** The exported fields of a [QueryStatsParam], as the template engine
    sees them. *)
Definition QueryStatsParam_field (p : QueryStatsParam) (name : string) : option string :=
  if String.eqb name "Table" then Some (Table p) else None.

(** A [time.Time], by the instant it denotes: seconds since the Unix
    epoch and the nanoseconds within that second. *)
Record Time : Type := { sec : Z; nsec : Z }.

Definition Unix (t : Time) : Z := sec t.

(** A [float64] is only carried around; it is kept as its IEEE 754 value. *)
Definition float64 : Type := spec_float.

Record QueryStat : Type := {
  InsertID : string;
  IntervalEnd : Time;
  Text : string;
  TextTruncated : bool;
  TextFingerprint : Z;
  ExecuteCount : Z;
  AvgLatencySeconds : float64;
  AvgRows : float64;
  AvgBytes : float64;
  AvgRowsScanned : float64;
  AvgCPUSeconds : float64
}.

(** The assignment [s.InsertID = v]. *)
Definition set_InsertID (v : string) (s : QueryStat) : QueryStat :=
  {| InsertID := v;
     IntervalEnd := IntervalEnd s;
     Text := Text s;
     TextTruncated := TextTruncated s;
     TextFingerprint := TextFingerprint s;
     ExecuteCount := ExecuteCount s;
     AvgLatencySeconds := AvgLatencySeconds s;
     AvgRows := AvgRows s;
     AvgBytes := AvgBytes s;
     AvgRowsScanned := AvgRowsScanned s;
     AvgCPUSeconds := AvgCPUSeconds s |}.

(** [fmt.Sprintf("%v-_-%v", a, b)] for two [int64] operands: [%v] prints
    each in base 10. *)
Definition Sprintf_v_v (a b : Z) : string :=
  strconv.FormatInt a +:+ "-_-" +:+ strconv.FormatInt b.

(** The body of [ToInsertID] on the record its receiver points to: the
    record after the call, and the string returned. *)
Definition QueryStat_ToInsertID (s : QueryStat) : QueryStat * string :=
  let s' := set_InsertID (Sprintf_v_v (Unix (IntervalEnd s)) (TextFingerprint s)) s in
  (s', InsertID s').

(** *** BigQuery side *)

Inductive FieldType : Type :=
| TimestampFieldType | StringFieldType | BooleanFieldType
| IntegerFieldType | FloatFieldType.

Record FieldSchema : Type := { Name : string; Required : bool; Type_ : FieldType }.

Definition queryStatsBigQueryTableSchema : list FieldSchema :=
  [ {| Name := "IntervalEnd"; Required := true; Type_ := TimestampFieldType |};
    {| Name := "Text"; Required := true; Type_ := StringFieldType |};
    {| Name := "TextTruncated"; Required := true; Type_ := BooleanFieldType |};
    {| Name := "TextFingerprint"; Required := true; Type_ := IntegerFieldType |};
    {| Name := "ExecuteCount"; Required := true; Type_ := IntegerFieldType |};
    {| Name := "AvgLatencySeconds"; Required := true; Type_ := FloatFieldType |};
    {| Name := "AvgRows"; Required := true; Type_ := FloatFieldType |};
    {| Name := "AvgBytes"; Required := true; Type_ := FloatFieldType |};
    {| Name := "AvgRowsScanned"; Required := true; Type_ := FloatFieldType |};
    {| Name := "AvgCPUSeconds"; Required := true; Type_ := FloatFieldType |} ].

(** A [*QueryStat]: an address in the heap below.  An address the heap
    does not hold is the nil pointer. *)
Abbreviation ptr := nat (only parsing).

Record StructSaver : Type := {
  Schema : list FieldSchema;
  SaverInsertID : string;
  Struct : ptr
}.

Record Dataset : Type := { ProjectID : string; DatasetID : string }.

(** *** The two clients and the state of a run *)

(** What [iter.Next()] and [row.ToStruct(&result)] give for one row. *)
Inductive rowItem : Type :=
| NextError (e : error)
| Row (ToStruct : result QueryStat).

(** The Spanner client, by the rows a statement yields (up to
    [iterator.Done]); the BigQuery client, by the verdict of one [Put]
    on the savers and the records they point to. *)
Record SpannerClient : Type := { Query : string -> list rowItem }.

Record BigQueryClient : Type := {
  Put : string -> string -> string -> list StructSaver -> gmap nat QueryStat -> option error
}.

Record QueryStatsCopyService : Type := {
  queryStatsTopQueryTemplate : template.Template;
  spanner : SpannerClient;
  bq : BigQueryClient
}.

(** The calls made to the outside, in order. *)
Inductive event : Type :=
| EvQuery (stmt : string)
| EvPut (project dataset table : string) (savers : list StructSaver).

Record state : Type := {
  heap : gmap nat QueryStat;
  trace : list event
}.

Definition M (A : Type) : Type := state -> result A * state.

Definition ret {A} (a : A) : M A := fun st => (OK a, st).
Definition fail {A} (e : error) : M A := fun st => (Err e, st).
Definition panic {A} (msg : string) : M A := fun st => (Panic msg, st).

Definition bind {A B} (m : M A) (k : A -> M B) : M B :=
  fun st =>
    match m st with
    | (OK a, st') => k a st'
    | (Err e, st') => (Err e, st')
    | (Panic msg, st') => (Panic msg, st')
    end.

Notation "'let*' x ':=' m 'in' k" := (bind m (fun x => k))
  (at level 10, x name, m at level 100, k at level 200).

Definition emit (ev : event) : M unit :=
  fun st => (OK tt, {| heap := heap st; trace := trace st ++ [ev] |}).

(** [&result] for a variable declared in the loop body: a new address. *)
Definition alloc (v : QueryStat) : M ptr :=
  fun st =>
    let p := fresh (dom (heap st)) in
    (OK p, {| heap := <[p := v]> (heap st); trace := trace st |}).

Definition NewQueryStatsCopyService (spannerClient : SpannerClient) (bqClient : BigQueryClient)
  : result QueryStatsCopyService :=
  match template.Parse queryStatsTopMinute with
  | Err e => Err e
  | Panic m => Panic m
  | OK tmpl =>
      OK {| queryStatsTopQueryTemplate := tmpl;
            spanner := spannerClient;
            bq := bqClient |}
  end.

(** The method [(s *QueryStat) ToInsertID()]. *)
Definition ToInsertID (s : ptr) : M string :=
  fun st =>
    match heap st !! s with
    | None => (Panic "nil pointer dereference", st)
    | Some qs =>
        let '(qs', id) := QueryStat_ToInsertID qs in
        (OK id, {| heap := <[s := qs']> (heap st); trace := trace st |})
    end.

(** The [for] loop of [GetQueryStats]; the end of [iter] is [iterator.Done]. *)
Fixpoint GetQueryStats_loop (iter : list rowItem) (rets : list ptr) : M (list ptr) :=
  match iter with
  | [] => ret rets
  | NextError e :: _ => fail (WithStack e)
  | Row (Err e) :: _ => fail (WithStack e)
  | Row (Panic m) :: _ => panic m
  | Row (OK result) :: iter' =>
      let* p := alloc result in
      GetQueryStats_loop iter' (rets ++ [p])
  end.

Definition GetQueryStats (s : QueryStatsCopyService) (table : string) : M (list ptr) :=
  match template.Execute (queryStatsTopQueryTemplate s)
                         (QueryStatsParam_field {| Table := table |}) with
  | Err e => fail e
  | Panic m => panic m
  | OK tpl =>
      let* _ := emit (EvQuery tpl) in
      GetQueryStats_loop (Query (spanner s) tpl) []
  end.

(** The [for ... range qss] loop of [ToBigQuery]. *)
Fixpoint ToBigQuery_loop (qss : list ptr) (sss : list StructSaver) : M (list StructSaver) :=
  match qss with
  | [] => ret sss
  | qs :: qss' =>
      let* insertID := ToInsertID qs in
      ToBigQuery_loop qss'
        (sss ++ [ {| Schema := queryStatsBigQueryTableSchema;
                     SaverInsertID := insertID;
                     Struct := qs |} ])
  end.

Definition ToBigQuery (s : QueryStatsCopyService) (dataset : Dataset) (table : string)
                      (qss : list ptr) : M unit :=
  let* sss := ToBigQuery_loop qss [] in
  let* _ := emit (EvPut (ProjectID dataset) (DatasetID dataset) table sss) in
  fun st =>
    match Put (bq s) (ProjectID dataset) (DatasetID dataset) table sss (heap st) with
    | Some err => (Err err, st)
    | None => (OK tt, st)
    end.

End spanner.

(** ** Vocabulary for the statements about [metadata] *)

Module metadata_spec.
Import metadata.

(** The failure the spec calls [InvalidFormat]: [ServiceAccountName]
    builds it with [fmt.Errorf]; the package has no type of its own for it. *)
Definition InvalidFormat (sa : string) : error :=
  Errorf ("invalid ServiceAccountEmail. email=" +:+ sa).

Definition is_letter (c : ascii) : bool :=
  let n := nat_of_ascii c in
  ((65 <=? n) && (n <=? 90) || (97 <=? n) && (n <=? 122))%nat.

(** [projects/{id}/zones/{zone}] *)
Definition zone_path (id zone : string) : string :=
  "projects/" +:+ id +:+ "/zones/" +:+ zone.

(** [{region}-{letter}] *)
Definition zone_name (region : string) (letter : ascii) : string :=
  region +:+ "-" +:+ String letter "".

(** The final [/]-separated segment of a raw zone path. *)
Definition final_segment (metaZone : string) : string :=
  strings.after_last metaZone "/".

Definition no_slash_or_short (metaZone : string) : Prop :=
  strings.Count metaZone "/" = 0%nat \/ (String.length (final_segment metaZone) < 3)%nat.

Definition both_extractions_fail (metaZone : string) : Prop :=
  fails_with is_InvalidArgument (ExtractionRegion metaZone) /\
  fails_with is_InvalidArgument (ExtractionZone metaZone).

(** A process outside the managed environment, with the given
    environment variables; and one inside it, with the given answers of
    the metadata server. *)
Definition env_world (env : gmap string string) : World :=
  {| OnGCE := false;
     environ := env;
     metadata_ProjectID := Err (ErrExternal "metadata: not on GCE");
     metadata_InstanceAttributeValue := fun _ => Err (ErrExternal "metadata: not on GCE");
     metadata_ProjectAttributeValue := fun _ => Err (ErrExternal "metadata: not on GCE");
     http_get := fun _ _ => DoError (ErrExternal "dial tcp: no such host") |}.

Definition gce_world (project : result string) (get : string -> http_outcome) : World :=
  {| OnGCE := true;
     environ := ∅;
     metadata_ProjectID := project;
     metadata_InstanceAttributeValue := fun _ => Err (ErrExternal "not defined");
     metadata_ProjectAttributeValue := fun _ => Err (ErrExternal "not defined");
     http_get := fun url _ => get url |}.

End metadata_spec.

(** ** Vocabulary for the statements about [spanner] *)

Module spanner_spec.
Import spanner.

(** The statement the query template stands for, for a given source
    table: the fixed select list, [FROM table], and a line end. *)
Definition select_list : string := "
SELECT
  text,
  text_truncated,
  text_fingerprint,
  interval_end,
  execution_count,
  avg_latency_seconds,
  avg_rows,
  avg_bytes,
  avg_rows_scanned,
  avg_cpu_seconds
FROM ".

Definition line_end : string := "
".

Definition select_from (table : string) : string :=
  select_list +:+ table +:+ line_end.

(** The three view names the package declares. *)
Definition fixed_views : list string :=
  [queryStatsTopMinuteTable; queryStatsTop10MinuteTable; queryStatsTopHourTable].

(** "Only a fixed view name can reach the generated query": whatever
    [GetQueryStats] is called with, every statement it sends selects from
    one of the three views. *)
Definition only_fixed_views : Prop :=
  forall sp bqc svc table st stmt,
    NewQueryStatsCopyService sp bqc = OK svc ->
    EvQuery stmt ∈ trace (snd (GetQueryStats svc table st)) ->
    exists view, view ∈ fixed_views /\ stmt = select_from view.

(** The insert-id of a record, as the spec writes it:
    [<interval_end_unix>-_-<text_fingerprint>]. *)
Definition insert_id (qs : QueryStat) : string :=
  strconv.FormatInt (Unix (IntervalEnd qs)) +:+ "-_-" +:+ strconv.FormatInt (TextFingerprint qs).

(** The entry [ToBigQuery] is to build for the record at [p]. *)
Definition saver_for (h : gmap nat QueryStat) (p : ptr) : StructSaver :=
  {| Schema := queryStatsBigQueryTableSchema;
     SaverInsertID := match h !! p with Some qs => insert_id qs | None => "" end;
     Struct := p |}.

(** Two heaps that agree on everything but the [InsertID] fields. *)
Definition same_but_InsertID (h h' : gmap nat QueryStat) : Prop :=
  forall p, set_InsertID "" <$> (h !! p) = set_InsertID "" <$> (h' !! p).

(** Sample data. *)
Definition zero : float64 := S754_zero false.

Definition sample_stat (t fingerprint : Z) : QueryStat :=
  {| InsertID := "";
     IntervalEnd := {| sec := t; nsec := 0 |};
     Text := "SELECT 1";
     TextTruncated := false;
     TextFingerprint := fingerprint;
     ExecuteCount := 1;
     AvgLatencySeconds := zero;
     AvgRows := zero;
     AvgBytes := zero;
     AvgRowsScanned := zero;
     AvgCPUSeconds := zero |}.

Definition sample_spanner (rows : list rowItem) : SpannerClient :=
  {| Query := fun _ => rows |}.

Definition sample_bq : BigQueryClient :=
  {| Put := fun _ _ _ _ _ => None |}.

(** The service [NewQueryStatsCopyService] builds over these two clients. *)
Definition sample_service (rows : list rowItem) : QueryStatsCopyService :=
  {| queryStatsTopQueryTemplate :=
       [template.TextNode select_list; template.FieldNode "Table"; template.TextNode line_end];
     spanner := sample_spanner rows;
     bq := sample_bq |}.

Definition empty_state : state := {| heap := ∅; trace := [] |}.

Definition sample_state : state :=
  {| heap := <[1%nat := sample_stat 1600000000 42]>
               (<[2%nat := sample_stat 1600000000 (-7)]> ∅);
     trace := [] |}.

End spanner_spec.

(** ** Vocabulary for the statements about the rest of the two files *)

Module coverage_spec.
Import metadata spanner spanner_spec.

(** The URL [getMetadata] asks for, and the header it sends. *)
Definition metadata_url (path : string) : string :=
  "http://metadata.google.internal/computeMetadata/v1/instance/" +:+ path.

Definition metadata_header : list (string * string) := [("Metadata-Flavor", "Google")].

(** The same world with one environment variable set. *)
Definition setenv (key value : string) (w : World) : World :=
  {| OnGCE := OnGCE w;
     environ := <[key := value]> (environ w);
     metadata_ProjectID := metadata_ProjectID w;
     metadata_InstanceAttributeValue := metadata_InstanceAttributeValue w;
     metadata_ProjectAttributeValue := metadata_ProjectAttributeValue w;
     http_get := http_get w |}.

(** A string and two more bytes. *)
Definition two_more (s : string) (c1 c2 : ascii) : string :=
  s +:+ String c1 (String c2 "").

(** A result set whose rows all arrive and decode. *)
Definition rows_ok (rs : list QueryStat) : list rowItem :=
  map (fun r => Row (OK r)) rs.

(** The error a row stops the fetch with, if it does. *)
Definition row_error (item : rowItem) : option error :=
  match item with
  | NextError e => Some e
  | Row (Err e) => Some e
  | Row (OK _) => None
  | Row (Panic _) => None
  end.

(** A record with its insert-id written into [InsertID]. *)
Definition stamp (qs : QueryStat) : QueryStat := set_InsertID (insert_id qs) qs.

(** Two records of one second, apart by their nanoseconds only. *)
Definition sample_stat_nsec (t ns fingerprint : Z) : QueryStat :=
  {| InsertID := "";
     IntervalEnd := {| sec := t; nsec := ns |};
     Text := "SELECT 1";
     TextTruncated := false;
     TextFingerprint := fingerprint;
     ExecuteCount := 1;
     AvgLatencySeconds := zero;
     AvgRows := zero;
     AvgBytes := zero;
     AvgRowsScanned := zero;
     AvgCPUSeconds := zero |}.

End coverage_spec.

(* ===================================================================== *)
(** * Part II: properties *)
(* ===================================================================== *)

(** ** Byte strings *)

Section string_facts.

(** stdpp keeps [String.append] from unfolding under [simpl]; its two
    defining equations are used as rewrite rules instead. *)
Lemma append_nil_l (s : string) : "" +:+ s = s.
Proof. reflexivity. Qed.

Lemma append_cons (c : ascii) (s t : string) : String c s +:+ t = String c (s +:+ t).
Proof. reflexivity. Qed.

Lemma append_nil_r (s : string) : s +:+ "" = s.
Proof.
  induction s as [|c s IH]; [reflexivity |].
  now rewrite append_cons, IH.
Qed.

Lemma append_assoc (a b c : string) : (a +:+ b) +:+ c = a +:+ (b +:+ c).
Proof.
  induction a as [|x a IH]; [reflexivity |].
  now rewrite !append_cons, IH.
Qed.

Lemma append_inv_head (s a b : string) : s +:+ a = s +:+ b -> a = b.
Proof.
  induction s as [|c s IH]; intros H; [exact H |].
  rewrite !append_cons in H. injection H as H. auto.
Qed.

Lemma append_length (a b : string) :
  String.length (a +:+ b) = (String.length a + String.length b)%nat.
Proof.
  induction a as [|x a IH]; [reflexivity |].
  rewrite append_cons. simpl. now rewrite IH.
Qed.

End string_facts.

(** ** Decimal numerals *)

Section strconv_facts.
Import strconv.

Lemma digit_val_char (d : Z) : 0 <= d < 10 -> digit_val (digit_char d) = Some d.
Proof.
  intros Hd.
  assert (d = 0 \/ d = 1 \/ d = 2 \/ d = 3 \/ d = 4 \/
          d = 5 \/ d = 6 \/ d = 7 \/ d = 8 \/ d = 9) as Hc by lia.
  repeat (destruct Hc as [-> | Hc]; [reflexivity |]).
  subst d. reflexivity.
Qed.

Lemma digits_val_app (s1 s2 : string) (acc : Z) :
  digits_val (s1 +:+ s2) acc =
  match digits_val s1 acc with
  | Some v => digits_val s2 v
  | None => None
  end.
Proof.
  revert acc. induction s1 as [|c s1 IH]; intros acc; [reflexivity |].
  rewrite append_cons. simpl.
  destruct (digit_val c); [apply IH | reflexivity].
Qed.

Lemma formatBits_loop_buf (fuel : nat) (u : Z) (buf : string) :
  formatBits_loop fuel u buf = formatBits_loop fuel u "" +:+ buf.
Proof.
  revert u buf. induction fuel as [|fuel IH]; intros u buf; cbn [formatBits_loop];
    [reflexivity |].
  destruct (10 <=? u); [| reflexivity].
  rewrite (IH _ (String _ buf)), (IH _ (String _ "")).
  now rewrite append_assoc.
Qed.

Lemma formatBits_loop_small (fuel : nat) (u : Z) (buf : string) :
  0 <= u < 10 -> formatBits_loop fuel u buf = String (digit_char u) buf.
Proof.
  intros Hu.
  assert (u / 10 = 0) as Hq by (apply Z.div_small; lia).
  assert ((10 <=? u) = false) as Hlt by (apply Z.leb_gt; lia).
  destruct fuel; cbn [formatBits_loop]; rewrite ?Hlt, Hq, Z.mul_0_l, Z.sub_0_r; reflexivity.
Qed.

Lemma formatBits_loop_val (fuel : nat) (u : Z) :
  0 <= u < 10 ^ Z.of_nat (S fuel) ->
  digits_val (formatBits_loop fuel u "") 0 = Some u.
Proof.
  revert u. induction fuel as [|fuel IH]; intros u Hu.
  - change (10 ^ Z.of_nat 1) with 10 in Hu.
    rewrite formatBits_loop_small by exact Hu.
    cbn [digits_val]. rewrite digit_val_char by exact Hu. reflexivity.
  - destruct (Z.leb_spec 10 u) as [Hge | Hlt].
    + cbn [formatBits_loop].
      replace (10 <=? u) with true by (symmetry; apply Z.leb_le; exact Hge).
      pose proof (Z.div_mod u 10 ltac:(lia)) as Hdm.
      pose proof (Z.mod_pos_bound u 10 ltac:(lia)) as Hm.
      rewrite formatBits_loop_buf, digits_val_app, IH.
      * cbn [digits_val]. rewrite digit_val_char by lia. f_equal. lia.
      * split; [apply Z.div_pos; lia |].
        apply Z.div_lt_upper_bound; [lia |].
        rewrite Nat2Z.inj_succ, Z.pow_succ_r in Hu by lia. lia.
    + rewrite formatBits_loop_small by lia.
      cbn [digits_val]. rewrite digit_val_char by lia. reflexivity.
Qed.

Lemma formatBits_fuel (u : Z) : 0 <= u -> u < 10 ^ Z.of_nat (S (Z.to_nat (Z.log2 u))).
Proof.
  intros Hu.
  pose proof (Z.log2_nonneg u) as Hl.
  rewrite Nat2Z.inj_succ, Z2Nat.id by lia.
  destruct (Z.eq_dec u 0) as [-> | Hne]; [reflexivity |].
  pose proof (Z.log2_spec u ltac:(lia)) as [_ Hlt].
  eapply Z.lt_le_trans; [exact Hlt |].
  apply Z.pow_le_mono_l. lia.
Qed.

Lemma formatBits_val (u : Z) : 0 <= u -> digits_val (formatBits u) 0 = Some u.
Proof.
  intros Hu. apply formatBits_loop_val.
  split; [exact Hu | now apply formatBits_fuel].
Qed.

Lemma digit_val_not_minus (c : ascii) (d : Z) : digit_val c = Some d -> Ascii.eqb c "-" = false.
Proof.
  intros H. destruct (Ascii.eqb c "-") eqn:E; [| reflexivity].
  apply Ascii.eqb_eq in E. subst c. discriminate H.
Qed.

Lemma formatBits_unsigned (u : Z) : 0 <= u -> unsigned_val (formatBits u) = Some u.
Proof.
  intros Hu. pose proof (formatBits_val u Hu) as H.
  unfold unsigned_val. destruct (formatBits u) eqn:E; [| exact H].
  unfold formatBits in E. rewrite formatBits_loop_buf in E.
  destruct (Z.to_nat (Z.log2 u)); cbn [formatBits_loop] in E; [discriminate E |].
  destruct (10 <=? u); [| discriminate E].
  rewrite formatBits_loop_buf in E.
  destruct (formatBits_loop n (u / 10) ""); discriminate E.
Qed.

(** Reading back what [FormatInt] printed gives the number printed. *)
Lemma FormatInt_val (i : Z) : decimal_val (FormatInt i) = Some i.
Proof.
  unfold FormatInt. destruct (i <? 0) eqn:Hneg.
  - apply Z.ltb_lt in Hneg. cbn [decimal_val].
    change (Ascii.eqb "-" "-") with true. cbv iota.
    rewrite formatBits_unsigned by lia. f_equal. lia.
  - apply Z.ltb_ge in Hneg.
    pose proof (formatBits_unsigned i Hneg) as H.
    unfold decimal_val. destruct (formatBits i) as [|c r] eqn:E; [discriminate H |].
    assert (exists d, digit_val c = Some d) as [d Hd].
    { cbn [unsigned_val digits_val] in H.
      destruct (digit_val c) as [d|]; [eauto | discriminate H]. }
    now rewrite (digit_val_not_minus c d Hd).
Qed.

Lemma FormatInt_inj (i j : Z) : FormatInt i = FormatInt j -> i = j.
Proof.
  intros H. pose proof (FormatInt_val i) as Hi.
  rewrite H, FormatInt_val in Hi. congruence.
Qed.

End strconv_facts.

(** ** [strings.Split] *)

Section strings_facts.
Import strings.

Lemma Split_length (s : string) (sep : ascii) :
  length (Split s sep) = S (Count s sep).
Proof.
  induction s as [|c s IH]; simpl; [reflexivity |].
  destruct (Ascii.eqb c sep); simpl; [now rewrite IH |].
  destruct (Split s sep) as [|x xs]; simpl in *; [discriminate IH | exact IH].
Qed.

Lemma Split_first (s : string) (sep : ascii) :
  Split s sep !! 0%nat = Some (before_first s sep).
Proof.
  induction s as [|c s IH]; simpl; [reflexivity |].
  destruct (Ascii.eqb c sep); [reflexivity |].
  destruct (Split s sep) as [|x xs]; simpl in *; [discriminate IH |].
  now injection IH as ->.
Qed.

Lemma after_last_no_sep (s : string) (sep : ascii) :
  Count s sep = 0%nat -> after_last s sep = s.
Proof.
  destruct s as [|c s]; [reflexivity |]. simpl.
  destruct (Ascii.eqb c sep); [discriminate |].
  intros ->. reflexivity.
Qed.

Lemma Split_last (s : string) (sep : ascii) :
  Split s sep !! (length (Split s sep) - 1)%nat = Some (after_last s sep).
Proof.
  induction s as [|c s IH]; simpl; [reflexivity |].
  pose proof (Split_length s sep) as Hlen.
  destruct (Nat.ltb_spec 0 (Count s sep)) as [Hpos | Hzero].
  - destruct (Ascii.eqb c sep); simpl.
    + rewrite Hlen in IH |- *. simpl in IH. rewrite Nat.sub_0_r in IH |- *.
      destruct (Count s sep); [lia | exact IH].
    + destruct (Split s sep) as [|x xs]; [discriminate Hlen |].
      simpl in *. rewrite Nat.sub_0_r in IH |- *.
      destruct xs as [|y ys]; [simpl in Hlen; lia | exact IH].
  - assert (Count s sep = 0%nat) as Hc by lia.
    rewrite (after_last_no_sep s sep Hc) in IH.
    rewrite Hc in Hlen.
    destruct (Split s sep) as [|x [|y ys]]; try discriminate Hlen.
    simpl in IH. injection IH as ->.
    destruct (Ascii.eqb c sep); reflexivity.
Qed.

Lemma Count_app (a b : string) (sep : ascii) :
  Count (a +:+ b) sep = (Count a sep + Count b sep)%nat.
Proof.
  induction a as [|c a IH]; [reflexivity |].
  rewrite append_cons. simpl. destruct (Ascii.eqb c sep); simpl; now rewrite IH.
Qed.

(** [after_last] is the substring after the last separator. *)
Lemma after_last_app (p z : string) (sep : ascii) :
  Count z sep = 0%nat -> after_last (p +:+ String sep z) sep = z.
Proof.
  intros Hz. induction p as [|c p IH].
  - rewrite append_nil_l. simpl. now rewrite Hz, Ascii.eqb_refl.
  - rewrite append_cons. simpl.
    rewrite Count_app. simpl. rewrite Ascii.eqb_refl.
    replace (0 <? Count p sep + S (Count z sep))%nat with true; [exact IH |].
    symmetry. apply Nat.ltb_lt. lia.
Qed.

(** [before_first] is the substring before the first separator. *)
Lemma before_first_app (a b : string) (sep : ascii) :
  Count a sep = 0%nat -> before_first (a +:+ String sep b) sep = a.
Proof.
  induction a as [|c a IH]; intros Ha.
  - rewrite append_nil_l. simpl. now rewrite Ascii.eqb_refl.
  - rewrite append_cons. simpl in *.
    destruct (Ascii.eqb c sep); [discriminate Ha |].
    now rewrite IH.
Qed.

Lemma substring_prefix (a b : string) :
  substring 0 (String.length a) (a +:+ b) = a.
Proof.
  induction a as [|c a IH]; [destruct b; reflexivity |].
  rewrite append_cons. simpl. now rewrite IH.
Qed.

End strings_facts.

(** ** [metadata]: zone paths *)

Section extraction_facts.
Import strings metadata metadata_spec.

(** [len(l) < 1] never holds for what [strings.Split] returns. *)
Lemma Split_guard (s : string) (sep : ascii) : (length (Split s sep) <? 1)%nat = false.
Proof. rewrite Split_length. reflexivity. Qed.

(** [ExtractionZone] never fails: it returns the final segment. *)
Lemma ExtractionZone_eq (metaZone : string) :
  ExtractionZone metaZone = OK (final_segment metaZone).
Proof.
  unfold ExtractionZone. cbv zeta.
  now rewrite Split_guard, Split_last.
Qed.

Lemma ExtractionRegion_eq (metaZone : string) :
  ExtractionRegion metaZone =
  let v := final_segment metaZone in
  if (String.length v <? 3)%nat
  then Err (ErrInvalidArgument required_format [("input_argument", metaZone)] None)
  else OK (substring 0 (String.length v - 2) v).
Proof.
  unfold ExtractionRegion. cbv zeta.
  now rewrite Split_guard, Split_last.
Qed.

Lemma is_letter_not_slash (c : ascii) : is_letter c = true -> Ascii.eqb c "/" = false.
Proof.
  intros H. destruct (Ascii.eqb c "/") eqn:E; [| reflexivity].
  apply Ascii.eqb_eq in E. subst c. discriminate H.
Qed.

Lemma zone_path_split (id zone : string) :
  zone_path id zone = ("projects/" +:+ id +:+ "/zones") +:+ String "/" zone.
Proof. unfold zone_path. now rewrite !append_assoc. Qed.

Lemma Count_zone_name (region : string) (c : ascii) :
  Count region "/" = 0%nat -> is_letter c = true -> Count (zone_name region c) "/" = 0%nat.
Proof.
  intros Hr Hc. unfold zone_name. rewrite Count_app, Hr.
  change ("-" +:+ String c "") with (String "-"%char (String c "")).
  cbn [Count Nat.add]. change (Ascii.eqb "-" "/") with false. cbv iota.
  now rewrite (is_letter_not_slash c Hc).
Qed.

Lemma final_segment_zone_path (id region : string) (c : ascii) :
  Count region "/" = 0%nat -> is_letter c = true ->
  final_segment (zone_path id (zone_name region c)) = zone_name region c.
Proof.
  intros Hr Hc. unfold final_segment. rewrite zone_path_split.
  apply after_last_app. now apply Count_zone_name.
Qed.

Lemma zone_name_length (region : string) (c : ascii) :
  String.length (zone_name region c) = (String.length region + 2)%nat.
Proof. unfold zone_name. now rewrite append_length. Qed.

End extraction_facts.

Section extraction_claims.
Import strings metadata metadata_spec.

(** C2, as the claim states it, fails: the raw zone path ["zones/ab"] has
    a final segment of two bytes, [ExtractionRegion] rejects it with
    [InvalidArgument], but [ExtractionZone] has no length check and
    returns ["ab"]. *)
Lemma ExtractionZone_short_segment_counterexample :
  no_slash_or_short "zones/ab" /\
  ExtractionZone "zones/ab" = OK "ab" /\
  ~ both_extractions_fail "zones/ab".
Proof.
  split; [right; vm_compute; lia |].
  split; [reflexivity |].
  intros [_ (e & He & _)]. discriminate He.
Qed.

(** C2 (amended): for every raw zone path whose final [/]-separated
    segment (the whole path when it holds no [/]) is shorter than 3
    bytes, [ExtractionRegion] fails with [InvalidArgument];
    [ExtractionZone] makes no length check: on a path that contains a [/]
    it returns the substring after the last [/], however short. *)
Theorem ExtractionRegion_short_segment (metaZone : string) :
  (String.length (final_segment metaZone) < 3)%nat ->
  fails_with is_InvalidArgument (ExtractionRegion metaZone) /\
  ((0 < Count metaZone "/")%nat -> ExtractionZone metaZone = OK (final_segment metaZone)).
Proof.
  intros Hshort. split.
  - rewrite ExtractionRegion_eq. cbv zeta.
    replace (String.length (final_segment metaZone) <? 3)%nat with true
      by (symmetry; apply Nat.ltb_lt; exact Hshort).
    eexists. split; reflexivity.
  - intros _. apply ExtractionZone_eq.
Qed.

Lemma ExtractionRegion_short_segment_witness :
  fails_with is_InvalidArgument (ExtractionRegion "projects/123/zones/ab") /\
  ExtractionZone "projects/123/zones/ab" = OK "ab".
Proof.
  destruct (ExtractionRegion_short_segment "projects/123/zones/ab") as [Hr Hz].
  - vm_compute. lia.
  - split; [exact Hr |]. apply Hz. vm_compute. lia.
Defined.

(** C3: for a raw zone path [projects/{id}/zones/{zone}] whose zone name
    is a region name followed by a dash and one letter, [ExtractionZone]
    returns the substring after the last [/], which is the zone name, and
    [ExtractionRegion] returns it without its last two bytes, which is
    the region name.  A region name holds no [/], and for
    [ExtractionRegion] it is not empty: the zone name has three bytes at
    least. *)
Theorem Extraction_zone_path (id region : string) (letter : ascii) :
  Count region "/" = 0%nat ->
  is_letter letter = true ->
  ExtractionZone (zone_path id (zone_name region letter)) = OK (zone_name region letter) /\
  final_segment (zone_path id (zone_name region letter)) = zone_name region letter /\
  (region <> "" ->
   ExtractionRegion (zone_path id (zone_name region letter)) = OK region).
Proof.
  intros Hr Hc.
  pose proof (final_segment_zone_path id region letter Hr Hc) as Hseg.
  split; [| split].
  - now rewrite ExtractionZone_eq, Hseg.
  - exact Hseg.
  - intros Hne. rewrite ExtractionRegion_eq, Hseg. cbv zeta.
    rewrite zone_name_length.
    assert (0 < String.length region)%nat as Hlen
      by (destruct region; [contradiction | simpl; lia]).
    replace (String.length region + 2 <? 3)%nat with false
      by (symmetry; apply Nat.ltb_ge; lia).
    replace (String.length region + 2 - 2)%nat with (String.length region) by lia.
    unfold zone_name. now rewrite substring_prefix.
Qed.

Lemma Extraction_zone_path_witness :
  ExtractionZone "projects/123/zones/us-central1-a" = OK "us-central1-a" /\
  ExtractionRegion "projects/123/zones/us-central1-a" = OK "us-central1".
Proof.
  destruct (Extraction_zone_path "123" "us-central1" "a") as (Hz & _ & Hr);
    [reflexivity | reflexivity |].
  split; [exact Hz |]. apply Hr. discriminate.
Defined.

End extraction_claims.

(** ** [metadata]: project and service account *)

Section identity_claims.
Import strings metadata metadata_spec.

Lemma eqb_empty_false (p : string) : p <> "" -> String.eqb p "" = false.
Proof. intros H. now apply String.eqb_neq. Qed.

(** [ProjectID] outside the managed environment, case by case. *)
Lemma ProjectID_env_eq (w : World) :
  OnGCE w = false ->
  ProjectID w =
  if negb (String.eqb (Getenv w "GOOGLE_CLOUD_PROJECT") "")
  then OK (Getenv w "GOOGLE_CLOUD_PROJECT")
  else if negb (String.eqb (Getenv w "GCLOUD_PROJECT") "")
  then OK (Getenv w "GCLOUD_PROJECT")
  else Err (ErrNotFound
              "project id environment valiable is not found. plz set $GOOGLE_CLOUD_PROJECT"
              [] None).
Proof. intros H. unfold ProjectID. now rewrite H. Qed.

(** C4: outside the managed environment, [ProjectID] returns
    [GOOGLE_CLOUD_PROJECT] when that variable has a non-empty value, else
    [GCLOUD_PROJECT] when that one has, and fails, with [NotFound],
    exactly when neither has (in particular when neither is present in
    the environment); with [GCLOUD_PROJECT=foo] alone it returns ["foo"].
    [os.Getenv] gives the empty string for an absent variable, so "set"
    is read as "has a non-empty value". *)
Theorem ProjectID_env (w : World) :
  OnGCE w = false ->
  (Getenv w "GOOGLE_CLOUD_PROJECT" <> "" ->
     ProjectID w = OK (Getenv w "GOOGLE_CLOUD_PROJECT")) /\
  (Getenv w "GOOGLE_CLOUD_PROJECT" = "" -> Getenv w "GCLOUD_PROJECT" <> "" ->
     ProjectID w = OK (Getenv w "GCLOUD_PROJECT")) /\
  (fails_with is_NotFound (ProjectID w) <->
     Getenv w "GOOGLE_CLOUD_PROJECT" = "" /\ Getenv w "GCLOUD_PROJECT" = "") /\
  (forall e, ProjectID w = Err e -> is_NotFound e = true) /\
  (environ w !! "GOOGLE_CLOUD_PROJECT" = None -> environ w !! "GCLOUD_PROJECT" = None ->
     fails_with is_NotFound (ProjectID w)) /\
  (environ w = {[ "GCLOUD_PROJECT" := "foo" ]} -> ProjectID w = OK "foo").
Proof.
  intros Hoff. rewrite (ProjectID_env_eq w Hoff).
  split; [| split; [| split; [| split; [| split]]]].
  - intros Hg. now rewrite (eqb_empty_false _ Hg).
  - intros -> Hc. cbn [negb]. change (String.eqb "" "") with true. cbv iota.
    cbn [negb]. now rewrite (eqb_empty_false _ Hc).
  - destruct (String.eqb_spec (Getenv w "GOOGLE_CLOUD_PROJECT") "") as [Hg | Hg];
      destruct (String.eqb_spec (Getenv w "GCLOUD_PROJECT") "") as [Hc | Hc];
      cbn [negb]; (split; [intros (e & He & Hk) | intros [H1 H2]]);
      try discriminate He; try contradiction; try (split; assumption).
    eexists. split; reflexivity.
  - intros e.
    destruct (String.eqb (Getenv w "GOOGLE_CLOUD_PROJECT") ""); cbn [negb];
      [| discriminate].
    destruct (String.eqb (Getenv w "GCLOUD_PROJECT") ""); cbn [negb];
      [| discriminate].
    intros [= <-]. reflexivity.
  - intros H1 H2. unfold Getenv. rewrite H1, H2. eexists. split; reflexivity.
  - intros Henv. unfold Getenv. rewrite Henv. reflexivity.
Qed.

Lemma ProjectID_env_witness :
  ProjectID (env_world {[ "GCLOUD_PROJECT" := "foo" ]}) = OK "foo".
Proof.
  apply (ProjectID_env (env_world {[ "GCLOUD_PROJECT" := "foo" ]}) eq_refl).
  reflexivity.
Defined.

(** C7: outside the managed environment, [ServiceAccountEmail] returns the
    value of [GCLOUD_SERVICE_ACCOUNT] as it is and does not fail; when the
    variable is absent the result is the empty string, returned without
    error. *)
Theorem ServiceAccountEmail_env (w : World) :
  OnGCE w = false ->
  ServiceAccountEmail w = OK (Getenv w "GCLOUD_SERVICE_ACCOUNT") /\
  (forall e, ServiceAccountEmail w <> Err e) /\
  (forall v, environ w !! "GCLOUD_SERVICE_ACCOUNT" = Some v -> ServiceAccountEmail w = OK v) /\
  (environ w !! "GCLOUD_SERVICE_ACCOUNT" = None -> ServiceAccountEmail w = OK "").
Proof.
  intros Hoff. unfold ServiceAccountEmail, Getenv. rewrite Hoff. cbn [negb].
  repeat split.
  - intros e. discriminate.
  - intros v ->. reflexivity.
  - intros ->. reflexivity.
Qed.

Lemma ServiceAccountEmail_env_witness :
  ServiceAccountEmail (env_world ∅) = OK "".
Proof.
  apply (ServiceAccountEmail_env (env_world ∅) eq_refl).
  reflexivity.
Defined.

End identity_claims.

Section service_account_claims.
Import strings metadata metadata_spec.

Lemma ServiceAccountName_eq (w : World) (sa : string) :
  ServiceAccountEmail w = OK sa ->
  ServiceAccountName w =
  if (Count sa "@" =? 1)%nat then OK (before_first sa "@") else Err (InvalidFormat sa).
Proof.
  intros H. unfold ServiceAccountName. rewrite H. cbv zeta.
  rewrite Split_length, Split_first.
  change (S (Count sa "@") =? 2)%nat with (Count sa "@" =? 1)%nat.
  now destruct (Count sa "@" =? 1)%nat.
Qed.

(** C5: when the e-mail splits on [@] into anything but two parts, that
    is when it does not hold exactly one [@], [ServiceAccountName] fails
    with the error the spec calls [InvalidFormat]; when it holds exactly
    one [@] the result is the part before it. *)
Theorem ServiceAccountName_split (w : World) (sa : string) :
  ServiceAccountEmail w = OK sa ->
  (length (Split sa "@") <> 2%nat -> ServiceAccountName w = Err (InvalidFormat sa)) /\
  (Count sa "@" <> 1%nat -> ServiceAccountName w = Err (InvalidFormat sa)) /\
  (Count sa "@" = 1%nat -> ServiceAccountName w = OK (before_first sa "@")) /\
  (forall name domain,
     Count name "@" = 0%nat -> Count domain "@" = 0%nat ->
     sa = name +:+ String "@" domain ->
     ServiceAccountName w = OK name).
Proof.
  intros H. rewrite (ServiceAccountName_eq w sa H).
  split; [| split; [| split]].
  - rewrite Split_length. intros Hn.
    destruct (Nat.eqb_spec (Count sa "@") 1) as [E | E]; [lia | reflexivity].
  - intros Hn.
    destruct (Nat.eqb_spec (Count sa "@") 1) as [E | E]; [lia | reflexivity].
  - intros ->. reflexivity.
  - intros name domain Hname Hdomain ->.
    rewrite Count_app. cbn [Count]. rewrite Ascii.eqb_refl, Hname, Hdomain.
    cbn [Nat.add Nat.eqb]. now rewrite before_first_app.
Qed.

Lemma ServiceAccountName_split_witness :
  ServiceAccountName
    (env_world {[ "GCLOUD_SERVICE_ACCOUNT" := "foo@bar.iam.gserviceaccount.com" ]}) = OK "foo".
Proof.
  apply (ServiceAccountName_split
           (env_world {[ "GCLOUD_SERVICE_ACCOUNT" := "foo@bar.iam.gserviceaccount.com" ]})
           "foo@bar.iam.gserviceaccount.com")
    with (name := "foo") (domain := "bar.iam.gserviceaccount.com");
    solve [reflexivity | vm_compute; reflexivity].
Defined.

(** C6: when the e-mail lookup gives [E] and the project lookup gives
    [P], [ServiceAccountID] returns ["projects/P/serviceAccounts/E"]; when
    the e-mail lookup fails, or it succeeds and the project lookup fails,
    [ServiceAccountID] fails with the error of the lookup that failed. *)
Theorem ServiceAccountID_compose (w : World) :
  (forall E P, ServiceAccountEmail w = OK E -> ProjectID w = OK P ->
     ServiceAccountID w = OK ("projects/" +:+ P +:+ "/serviceAccounts/" +:+ E)) /\
  (forall e, ServiceAccountEmail w = Err e -> ServiceAccountID w = Err e) /\
  (forall E e, ServiceAccountEmail w = OK E -> ProjectID w = Err e ->
     ServiceAccountID w = Err e).
Proof.
  unfold ServiceAccountID. repeat split.
  - intros E P -> ->. reflexivity.
  - intros e ->. reflexivity.
  - intros E e -> ->. reflexivity.
Qed.

Lemma ServiceAccountID_compose_witness :
  ServiceAccountID
    (env_world {[ "GCLOUD_SERVICE_ACCOUNT" := "sa@p.iam.gserviceaccount.com";
                  "GOOGLE_CLOUD_PROJECT" := "p" ]})
  = OK "projects/p/serviceAccounts/sa@p.iam.gserviceaccount.com" /\
  ServiceAccountID (env_world {[ "GCLOUD_SERVICE_ACCOUNT" := "sa@p.iam.gserviceaccount.com" ]})
  = Err (ErrNotFound
           "project id environment valiable is not found. plz set $GOOGLE_CLOUD_PROJECT"
           [] None) /\
  ServiceAccountID (gce_world (OK "p") (fun _ => Response 404 "not found"))
  = Err (Wrapf "failed get ServiceAccountEmail : "
           (Errorf "metadata server response is 404:not found")).
Proof.
  split; [| split].
  - refine (proj1 (ServiceAccountID_compose _) "sa@p.iam.gserviceaccount.com" "p" _ _);
      vm_compute; reflexivity.
  - refine (proj2 (proj2 (ServiceAccountID_compose _)) "sa@p.iam.gserviceaccount.com" _ _ _);
      vm_compute; reflexivity.
  - refine (proj1 (proj2 (ServiceAccountID_compose _)) _ _); vm_compute; reflexivity.
Defined.

End service_account_claims.

(** ** Canonical numerals *)

Section canonical_facts.
Import strconv.

Lemma nonzero_digit_char (d : Z) : 1 <= d <= 9 -> nonzero_digit (digit_char d) = true.
Proof.
  intros Hd.
  assert (d = 1 \/ d = 2 \/ d = 3 \/ d = 4 \/ d = 5 \/
          d = 6 \/ d = 7 \/ d = 8 \/ d = 9) as Hc by lia.
  repeat (destruct Hc as [-> | Hc]; [reflexivity |]).
  subst d. reflexivity.
Qed.

(** The first byte [formatBits] writes for a positive number is a digit
    other than [0]. *)
Lemma formatBits_loop_head (fuel : nat) (u : Z) :
  0 < u < 10 ^ Z.of_nat (S fuel) ->
  exists d r, 1 <= d <= 9 /\ formatBits_loop fuel u "" = String (digit_char d) r.
Proof.
  revert u. induction fuel as [|fuel IH]; intros u Hu.
  - change (10 ^ Z.of_nat 1) with 10 in Hu.
    exists u, "". split; [lia |]. apply formatBits_loop_small. lia.
  - destruct (Z.leb_spec 10 u) as [Hge | Hlt].
    + cbn [formatBits_loop].
      replace (10 <=? u) with true by (symmetry; apply Z.leb_le; exact Hge).
      destruct (IH (u / 10)) as (d & r & Hd & Hr).
      * split; [apply Z.div_str_pos; lia |].
        apply Z.div_lt_upper_bound; [lia |].
        rewrite Nat2Z.inj_succ, Z.pow_succ_r in Hu by lia. lia.
      * rewrite formatBits_loop_buf, Hr, append_cons. eauto.
    + exists u, "". split; [lia |]. apply formatBits_loop_small. lia.
Qed.

Lemma canonical_head (d : Z) (r : string) :
  1 <= d <= 9 -> canonical (String (digit_char d) r) = true.
Proof.
  intros Hd.
  assert (d = 1 \/ d = 2 \/ d = 3 \/ d = 4 \/ d = 5 \/
          d = 6 \/ d = 7 \/ d = 8 \/ d = 9) as Hc by lia.
  repeat (destruct Hc as [-> | Hc]; [reflexivity |]).
  subst d. reflexivity.
Qed.

Lemma FormatInt_canonical (i : Z) : canonical (FormatInt i) = true.
Proof.
  unfold FormatInt. destruct (Z.ltb_spec i 0) as [Hneg | Hpos].
  - destruct (formatBits_loop_head (Z.to_nat (Z.log2 (- i))) (- i)) as (d & r & Hd & Hr).
    { split; [lia | apply formatBits_fuel; lia]. }
    unfold formatBits. rewrite Hr. cbn [canonical].
    change (Ascii.eqb "-" "-") with true. cbv iota.
    now apply nonzero_digit_char.
  - destruct (Z.eq_dec i 0) as [-> | Hne]; [reflexivity |].
    destruct (formatBits_loop_head (Z.to_nat (Z.log2 i)) i) as (d & r & Hd & Hr).
    { split; [lia | apply formatBits_fuel; lia]. }
    unfold formatBits. rewrite Hr. now apply canonical_head.
Qed.

End canonical_facts.

(** ** [ToInsertID] *)

Section insert_id_claims.
Import strconv spanner spanner_spec.

Lemma QueryStat_ToInsertID_snd (s : QueryStat) : snd (QueryStat_ToInsertID s) = insert_id s.
Proof. reflexivity. Qed.

Lemma insert_id_inj_fingerprint (s1 s2 : QueryStat) :
  Unix (IntervalEnd s1) = Unix (IntervalEnd s2) ->
  insert_id s1 = insert_id s2 -> TextFingerprint s1 = TextFingerprint s2.
Proof.
  unfold insert_id. intros -> H.
  apply append_inv_head in H. apply (append_inv_head "-_-") in H.
  now apply FormatInt_inj.
Qed.

(** C1: [ToInsertID] returns the canonical decimal numeral of the Unix
    seconds of [IntervalEnd], then ["-_-"], then the canonical decimal
    numeral of [TextFingerprint]; two records with the same
    [IntervalEnd] and the same [TextFingerprint] get the same string, and
    two records with the same [IntervalEnd] and different
    [TextFingerprint]s get different strings. *)
Theorem ToInsertID_deterministic (s1 s2 : QueryStat) :
  (exists a b,
      snd (QueryStat_ToInsertID s1) = a +:+ "-_-" +:+ b /\
      a = FormatInt (Unix (IntervalEnd s1)) /\ b = FormatInt (TextFingerprint s1) /\
      decimal_val a = Some (Unix (IntervalEnd s1)) /\ canonical a = true /\
      decimal_val b = Some (TextFingerprint s1) /\ canonical b = true) /\
  (IntervalEnd s1 = IntervalEnd s2 -> TextFingerprint s1 = TextFingerprint s2 ->
     snd (QueryStat_ToInsertID s1) = snd (QueryStat_ToInsertID s2)) /\
  (IntervalEnd s1 = IntervalEnd s2 -> TextFingerprint s1 <> TextFingerprint s2 ->
     snd (QueryStat_ToInsertID s1) <> snd (QueryStat_ToInsertID s2)).
Proof.
  rewrite !QueryStat_ToInsertID_snd. split; [| split].
  - exists (FormatInt (Unix (IntervalEnd s1))), (FormatInt (TextFingerprint s1)).
    repeat split; auto using FormatInt_val, FormatInt_canonical.
  - unfold insert_id. intros -> ->. reflexivity.
  - intros Ht Hfp Heq. apply Hfp.
    apply insert_id_inj_fingerprint; [now rewrite Ht | exact Heq].
Qed.

Lemma ToInsertID_deterministic_witness :
  snd (QueryStat_ToInsertID (sample_stat 1600000000 42)) = "1600000000-_-42" /\
  snd (QueryStat_ToInsertID (sample_stat 1600000000 42)) <>
  snd (QueryStat_ToInsertID (sample_stat 1600000000 (-7))).
Proof.
  split; [reflexivity |].
  apply (ToInsertID_deterministic (sample_stat 1600000000 42) (sample_stat 1600000000 (-7)));
    [reflexivity | discriminate].
Defined.

End insert_id_claims.

Section receiver_claims.
Import spanner spanner_spec.

Lemma ToInsertID_run (st : state) (p : ptr) (qs : QueryStat) :
  heap st !! p = Some qs ->
  ToInsertID p st =
  (OK (insert_id qs),
   {| heap := <[p := set_InsertID (insert_id qs) qs]> (heap st); trace := trace st |}).
Proof. intros H. unfold ToInsertID. now rewrite H. Qed.

(** C10: a call of [ToInsertID] on a receiver that is not nil returns
    normally, writes the [InsertID] field of the record the receiver
    points to and nothing else: the ten other fields of that record, every
    other record, and the calls made to the outside are as before; the
    string returned is the value now stored in [InsertID]. *)
Theorem ToInsertID_frame (st : state) (p : ptr) (qs : QueryStat) :
  heap st !! p = Some qs ->
  exists id qs',
    fst (ToInsertID p st) = OK id /\
    heap (snd (ToInsertID p st)) !! p = Some qs' /\
    InsertID qs' = id /\
    IntervalEnd qs' = IntervalEnd qs /\
    Text qs' = Text qs /\
    TextTruncated qs' = TextTruncated qs /\
    TextFingerprint qs' = TextFingerprint qs /\
    ExecuteCount qs' = ExecuteCount qs /\
    AvgLatencySeconds qs' = AvgLatencySeconds qs /\
    AvgRows qs' = AvgRows qs /\
    AvgBytes qs' = AvgBytes qs /\
    AvgRowsScanned qs' = AvgRowsScanned qs /\
    AvgCPUSeconds qs' = AvgCPUSeconds qs /\
    (forall p', p' <> p -> heap (snd (ToInsertID p st)) !! p' = heap st !! p') /\
    trace (snd (ToInsertID p st)) = trace st.
Proof.
  intros H. rewrite (ToInsertID_run st p qs H). cbn [fst snd heap trace].
  exists (insert_id qs), (set_InsertID (insert_id qs) qs).
  split; [reflexivity |].
  split; [apply lookup_insert_eq |].
  repeat (split; [reflexivity |]).
  split; [| reflexivity].
  intros p' Hp'. now apply lookup_insert_ne.
Qed.

Lemma ToInsertID_frame_witness :
  exists id qs',
    fst (ToInsertID 1%nat sample_state) = OK id /\
    heap (snd (ToInsertID 1%nat sample_state)) !! 1%nat = Some qs' /\
    InsertID qs' = id /\
    TextFingerprint qs' = 42 /\
    heap (snd (ToInsertID 1%nat sample_state)) !! 2%nat = heap sample_state !! 2%nat.
Proof.
  destruct (ToInsertID_frame sample_state 1%nat (sample_stat 1600000000 42))
    as (id & qs' & H1 & H2 & H3 & _ & _ & _ & H4 & _ & _ & _ & _ & _ & _ & H5 & _).
  - vm_compute. reflexivity.
  - exists id, qs'.
    split; [exact H1 |]. split; [exact H2 |]. split; [exact H3 |]. split; [exact H4 |].
    apply H5. discriminate.
Defined.

End receiver_claims.


(** ** [GetQueryStats] *)

Section query_claims.
Import spanner spanner_spec.

(** The parsed query template: the select list, the table, a line end. *)
Lemma Parse_queryStatsTopMinute :
  template.Parse queryStatsTopMinute =
  OK [template.TextNode select_list; template.FieldNode "Table"; template.TextNode line_end].
Proof. vm_compute. reflexivity. Qed.

Lemma NewQueryStatsCopyService_template (sp : SpannerClient) (bqc : BigQueryClient)
      (svc : QueryStatsCopyService) :
  NewQueryStatsCopyService sp bqc = OK svc ->
  queryStatsTopQueryTemplate svc =
  [template.TextNode select_list; template.FieldNode "Table"; template.TextNode line_end] /\
  spanner svc = sp /\ bq svc = bqc.
Proof.
  unfold NewQueryStatsCopyService. rewrite Parse_queryStatsTopMinute.
  intros [= <-]. repeat split.
Qed.

(** The constructor cannot fail: the template is a constant that parses. *)
Lemma NewQueryStatsCopyService_ok (sp : SpannerClient) (bqc : BigQueryClient) :
  exists svc, NewQueryStatsCopyService sp bqc = OK svc.
Proof.
  unfold NewQueryStatsCopyService. rewrite Parse_queryStatsTopMinute. eauto.
Qed.

Lemma Execute_query_template (table : string) :
  template.Execute
    [template.TextNode select_list; template.FieldNode "Table"; template.TextNode line_end]
    (QueryStatsParam_field {| Table := table |})
  = OK (select_from table).
Proof.
  cbn [template.Execute]. unfold QueryStatsParam_field.
  change (String.eqb "Table" "Table") with true. cbv iota. cbn [Table].
  unfold select_from. now rewrite append_nil_r.
Qed.

(** The row loop makes no call to the outside. *)
Lemma GetQueryStats_loop_trace (iter : list rowItem) :
  forall rets st, trace (snd (GetQueryStats_loop iter rets st)) = trace st.
Proof.
  induction iter as [|item iter IH]; intros rets st; [reflexivity |].
  destruct item as [e | [result | e | m]]; try reflexivity.
  cbn [GetQueryStats_loop]. unfold bind, alloc. now rewrite IH.
Qed.

Lemma GetQueryStats_trace (sp : SpannerClient) (bqc : BigQueryClient)
      (svc : QueryStatsCopyService) (table : string) (st : state) :
  NewQueryStatsCopyService sp bqc = OK svc ->
  trace (snd (GetQueryStats svc table st)) = trace st ++ [EvQuery (select_from table)].
Proof.
  intros Hnew. destruct (NewQueryStatsCopyService_template sp bqc svc Hnew) as (Ht & _ & _).
  unfold GetQueryStats. rewrite Ht, Execute_query_template.
  unfold bind, emit. now rewrite GetQueryStats_loop_trace.
Qed.

Lemma select_from_inj (t1 t2 : string) : select_from t1 = select_from t2 -> t1 = t2.
Proof.
  unfold select_from. intros H. apply append_inv_head in H.
  revert t2 H. induction t1 as [|c t1 IH]; intros [|d t2] H.
  - reflexivity.
  - rewrite append_cons in H. change ("" +:+ line_end) with line_end in H.
    unfold line_end in H. injection H as _ H. destruct t2; discriminate H.
  - rewrite append_cons in H. change ("" +:+ line_end) with line_end in H.
    unfold line_end in H. injection H as _ H. destruct t1; discriminate H.
  - rewrite !append_cons in H. injection H as -> H. f_equal. now apply IH.
Qed.

(** C8, as the claim states it, fails: [GetQueryStats] takes the table as
    a [string] and puts it into the statement as it is.  Called with
    ["accounts"], which is none of the three view names, it sends the
    select from [accounts]. *)
Lemma GetQueryStats_freeform_table_counterexample :
  ("accounts" ∉ fixed_views) /\
  NewQueryStatsCopyService (sample_spanner []) sample_bq = OK (sample_service []) /\
  trace (snd (GetQueryStats (sample_service []) "accounts" empty_state))
  = [EvQuery (select_from "accounts")] /\
  ~ only_fixed_views.
Proof.
  assert ("accounts" ∉ fixed_views) as Hnot.
  { unfold fixed_views. rewrite !not_elem_of_cons. repeat split; try discriminate.
    apply not_elem_of_nil. }
  assert (NewQueryStatsCopyService (sample_spanner []) sample_bq = OK (sample_service []))
    as Hnew by (vm_compute; reflexivity).
  split; [exact Hnot |]. split; [exact Hnew |]. split.
  - now rewrite (GetQueryStats_trace _ _ _ "accounts" empty_state Hnew).
  - intros Hclaim.
    destruct (Hclaim _ _ _ "accounts" empty_state (select_from "accounts") Hnew)
      as (view & Hview & Heq).
    + rewrite (GetQueryStats_trace _ _ _ "accounts" empty_state Hnew).
      apply list_elem_of_here.
    + apply select_from_inj in Heq. subst view. contradiction.
Qed.

(** C8 (amended): the source table name substituted into the query
    template is the [table] argument of [GetQueryStats], a string that is
    written into the statement as it is: every call sends exactly one
    statement, the fixed select list followed by [FROM table].  The three
    view names are constants of the package; a call with one of them
    selects from that view, and the function itself does not restrict its
    argument to them: statements for different arguments differ. *)
Theorem GetQueryStats_statement (sp : SpannerClient) (bqc : BigQueryClient)
        (svc : QueryStatsCopyService) (table : string) (st : state) :
  NewQueryStatsCopyService sp bqc = OK svc ->
  trace (snd (GetQueryStats svc table st)) = trace st ++ [EvQuery (select_from table)] /\
  (forall table', select_from table' = select_from table -> table' = table).
Proof.
  intros Hnew. split.
  - exact (GetQueryStats_trace sp bqc svc table st Hnew).
  - intros table'. apply select_from_inj.
Qed.

Lemma GetQueryStats_statement_witness :
  trace (snd (GetQueryStats (sample_service [Row (OK (sample_stat 1600000000 42))])
                            queryStatsTopHourTable empty_state))
  = [EvQuery (select_from "spanner_sys.query_stats_top_hour")].
Proof.
  apply (GetQueryStats_statement
           (sample_spanner [Row (OK (sample_stat 1600000000 42))]) sample_bq
           (sample_service [Row (OK (sample_stat 1600000000 42))])
           queryStatsTopHourTable empty_state).
  vm_compute. reflexivity.
Defined.

End query_claims.

(** ** [ToBigQuery] *)

Section bigquery_claims.
Import spanner spanner_spec.

Lemma same_but_InsertID_refl (h : gmap nat QueryStat) : same_but_InsertID h h.
Proof. intros p. reflexivity. Qed.

Lemma same_but_InsertID_trans (h1 h2 h3 : gmap nat QueryStat) :
  same_but_InsertID h1 h2 -> same_but_InsertID h2 h3 -> same_but_InsertID h1 h3.
Proof. intros H12 H23 p. now rewrite H12. Qed.

Lemma same_but_InsertID_insert (h : gmap nat QueryStat) (p : ptr) (qs : QueryStat) (v : string) :
  h !! p = Some qs -> same_but_InsertID h (<[p := set_InsertID v qs]> h).
Proof.
  intros H q. destruct (decide (p = q)) as [<- | Hne].
  - now rewrite lookup_insert_eq, H.
  - now rewrite lookup_insert_ne.
Qed.

(** The insert-id does not depend on the [InsertID] field. *)
Lemma insert_id_set_InsertID (v : string) (qs : QueryStat) :
  insert_id (set_InsertID v qs) = insert_id qs.
Proof. reflexivity. Qed.

Lemma saver_for_same (h h' : gmap nat QueryStat) (p : ptr) :
  same_but_InsertID h h' -> saver_for h p = saver_for h' p.
Proof.
  intros H. specialize (H p). unfold saver_for.
  destruct (h !! p) as [q|], (h' !! p) as [q'|]; try discriminate H; [| reflexivity].
  injection H as Ht _ _ Hfp _ _ _ _ _ _.
  unfold insert_id. now rewrite Ht, Hfp.
Qed.

(** The loop ends normally when no pointer is nil, appends one entry per
    pointer, in order, and touches [InsertID] fields only. *)
Lemma ToBigQuery_loop_run (qss : list ptr) :
  forall (sss : list StructSaver) (st : state),
    Forall (fun p => is_Some (heap st !! p)) qss ->
    exists h',
      ToBigQuery_loop qss sss st
      = (OK (sss ++ map (saver_for (heap st)) qss), {| heap := h'; trace := trace st |}) /\
      same_but_InsertID (heap st) h'.
Proof.
  induction qss as [|p qss IH]; intros sss st Hall.
  - exists (heap st). split; [| apply same_but_InsertID_refl].
    cbn [ToBigQuery_loop map]. rewrite app_nil_r. now destruct st.
  - apply Forall_cons in Hall as [[qs Hp] Hall].
    cbn [ToBigQuery_loop]. unfold bind at 1.
    rewrite (ToInsertID_run st p qs Hp).
    pose proof (same_but_InsertID_insert (heap st) p qs (insert_id qs) Hp) as Hsame.
    set (st1 := {| heap := <[p := set_InsertID (insert_id qs) qs]> (heap st);
                   trace := trace st |}).
    destruct (IH (sss ++ [ {| Schema := queryStatsBigQueryTableSchema;
                              SaverInsertID := insert_id qs;
                              Struct := p |} ]) st1) as (h' & Hrun & Hsame').
    { apply Forall_forall. intros q Hq.
      rewrite Forall_forall in Hall. destruct (Hall q Hq) as [v Hv].
      specialize (Hsame q). cbn [heap st1]. rewrite Hv in Hsame.
      destruct (<[p := set_InsertID (insert_id qs) qs]> (heap st) !! q); [eauto | discriminate]. }
    exists h'. split; [| now apply (same_but_InsertID_trans _ (heap st1))].
    rewrite Hrun. cbn [heap trace st1 map]. rewrite <- app_assoc. cbn [app].
    assert (saver_for (heap st) p
            = {| Schema := queryStatsBigQueryTableSchema;
                 SaverInsertID := insert_id qs;
                 Struct := p |}) as -> by (unfold saver_for; now rewrite Hp).
    assert (map (saver_for (<[p := set_InsertID (insert_id qs) qs]> (heap st))) qss
            = map (saver_for (heap st)) qss) as ->; [| reflexivity].
    apply map_ext. intros q. symmetry. now apply saver_for_same.
Qed.

Lemma ToBigQuery_run (s : QueryStatsCopyService) (dataset : Dataset) (table : string)
      (qss : list ptr) (st : state) :
  Forall (fun p => is_Some (heap st !! p)) qss ->
  exists h',
    let sss := map (saver_for (heap st)) qss in
    let st' := {| heap := h';
                  trace := trace st ++ [EvPut (ProjectID dataset) (DatasetID dataset) table sss] |} in
    ToBigQuery s dataset table qss st
    = (match Put (bq s) (ProjectID dataset) (DatasetID dataset) table sss h' with
       | Some err => Err err
       | None => OK tt
       end, st') /\
    same_but_InsertID (heap st) h'.
Proof.
  intros Hall. destruct (ToBigQuery_loop_run qss [] st Hall) as (h' & Hrun & Hsame).
  exists h'. cbv zeta. split; [| exact Hsame].
  unfold ToBigQuery. unfold bind at 1. rewrite Hrun. cbn [app].
  unfold bind, emit. cbn [heap trace].
  now destruct (Put (bq s) _ _ _ _ h').
Qed.

(** C9: given [n] pointers to records, none nil, [ToBigQuery] makes one
    call of [Put], with [n] entries, in the order of the input; the entry
    for a record holds the fixed table schema, the record, and the
    insert-id computed from that record; the records change in their
    [InsertID] fields only, and the result is the verdict of that [Put].
    In particular two records with the same [IntervalEnd] and different
    [TextFingerprint]s give two entries with two different insert-ids. *)
Theorem ToBigQuery_entries (s : QueryStatsCopyService) (dataset : Dataset) (table : string)
        (qss : list nat) (st : state) :
  Forall (fun p => is_Some (heap st !! p)) qss ->
  exists sss,
    trace (snd (ToBigQuery s dataset table qss st))
    = trace st ++ [EvPut (ProjectID dataset) (DatasetID dataset) table sss] /\
    length sss = length qss /\
    (forall i p, qss !! i = Some p ->
       exists qs, heap st !! p = Some qs /\
                  sss !! i = Some {| Schema := queryStatsBigQueryTableSchema;
                                     SaverInsertID := insert_id qs;
                                     Struct := p |}) /\
    same_but_InsertID (heap st) (heap (snd (ToBigQuery s dataset table qss st))) /\
    fst (ToBigQuery s dataset table qss st)
    = match Put (bq s) (ProjectID dataset) (DatasetID dataset) table sss
                (heap (snd (ToBigQuery s dataset table qss st))) with
      | Some err => Err err
      | None => OK tt
      end /\
    (forall p1 p2 q1 q2,
       qss = [p1; p2] -> heap st !! p1 = Some q1 -> heap st !! p2 = Some q2 ->
       IntervalEnd q1 = IntervalEnd q2 -> TextFingerprint q1 <> TextFingerprint q2 ->
       exists e1 e2,
         sss = [e1; e2] /\
         SaverInsertID e1 = insert_id q1 /\ SaverInsertID e2 = insert_id q2 /\
         SaverInsertID e1 <> SaverInsertID e2).
Proof.
  intros Hall.
  destruct (ToBigQuery_run s dataset table qss st Hall) as (h' & Hrun & Hsame).
  cbv zeta in Hrun. rewrite Hrun. cbn [fst snd heap trace].
  exists (map (saver_for (heap st)) qss).
  split; [reflexivity |]. split; [apply length_map |].
  split; [| split; [exact Hsame | split; [reflexivity |]]].
  - intros i p Hi.
    rewrite Forall_forall in Hall.
    destruct (Hall p) as [qs Hqs]; [eapply list_elem_of_lookup_2; exact Hi |].
    exists qs. split; [exact Hqs |].
    rewrite list_lookup_fmap_Some. exists p. split; [| exact Hi].
    unfold saver_for. now rewrite Hqs.
  - intros p1 p2 q1 q2 -> H1 H2 Ht Hfp.
    exists (saver_for (heap st) p1), (saver_for (heap st) p2).
    split; [reflexivity |].
    unfold saver_for. rewrite H1, H2. cbn [SaverInsertID].
    split; [reflexivity |]. split; [reflexivity |].
    intros Heq. apply Hfp.
    apply insert_id_inj_fingerprint; [now rewrite Ht | exact Heq].
Qed.

Lemma ToBigQuery_entries_witness :
  exists e1 e2,
    trace (snd (ToBigQuery (sample_service []) {| ProjectID := "p"; DatasetID := "d" |} "t"
                           [1%nat; 2%nat] sample_state))
    = [EvPut "p" "d" "t" [e1; e2]] /\
    SaverInsertID e1 = "1600000000-_-42" /\
    SaverInsertID e2 = "1600000000-_--7" /\
    SaverInsertID e1 <> SaverInsertID e2.
Proof.
  destruct (ToBigQuery_entries (sample_service []) {| ProjectID := "p"; DatasetID := "d" |} "t"
                               [1%nat; 2%nat] sample_state)
    as (sss & Htrace & _ & _ & _ & _ & Htwo).
  - repeat constructor; vm_compute; eauto.
  - destruct (Htwo 1%nat 2%nat (sample_stat 1600000000 42) (sample_stat 1600000000 (-7)))
      as (e1 & e2 & -> & H1 & H2 & Hne);
      [reflexivity | vm_compute; reflexivity | vm_compute; reflexivity
      | reflexivity | discriminate |].
    exists e1, e2. split; [exact Htrace |].
    split; [rewrite H1; reflexivity |]. split; [rewrite H2; reflexivity | exact Hne].
Defined.

End bigquery_claims.

(** ** The two steps together *)

Section pipeline_facts.
Import spanner spanner_spec.

(** What [GetQueryStats] returns are pointers to records it has just
    allocated: none is nil, so [ToBigQuery] can be run on them. *)
Lemma GetQueryStats_loop_allocated (iter : list rowItem) :
  forall rets st qss st',
    Forall (fun p => is_Some (heap st !! p)) rets ->
    GetQueryStats_loop iter rets st = (OK qss, st') ->
    Forall (fun p => is_Some (heap st' !! p)) qss.
Proof.
  induction iter as [|item iter IH]; intros rets st qss st' Hrets Hrun.
  - injection Hrun as <- <-. exact Hrets.
  - destruct item as [e | [result | e | m]]; try discriminate Hrun.
    cbn [GetQueryStats_loop] in Hrun. unfold bind, alloc in Hrun.
    eapply IH; [| exact Hrun]. cbn [heap].
    apply Forall_app. split.
    + eapply Forall_impl; [exact Hrets |]. intros q [v Hv].
      destruct (decide (fresh (dom (heap st)) = q)) as [<- | Hne].
      * rewrite lookup_insert_eq. eauto.
      * rewrite lookup_insert_ne by exact Hne. eauto.
    + constructor; [| constructor]. rewrite lookup_insert_eq. eauto.
Qed.

Lemma GetQueryStats_allocated (s : QueryStatsCopyService) (table : string)
      (st : state) (qss : list nat) (st' : state) :
  GetQueryStats s table st = (OK qss, st') ->
  Forall (fun p => is_Some (heap st' !! p)) qss.
Proof.
  unfold GetQueryStats.
  destruct (template.Execute _ _) as [tpl | e | m]; try discriminate.
  unfold bind, emit. apply GetQueryStats_loop_allocated. constructor.
Qed.

(** Two rows of one interval with different fingerprints, fetched and
    then copied: one [Put] with two entries whose insert-ids differ. *)
Example fetch_then_copy :
  let svc := sample_service [Row (OK (sample_stat 1600000000 42));
                             Row (OK (sample_stat 1600000000 (-7)))] in
  let run :=
    bind (GetQueryStats svc queryStatsTopMinuteTable)
         (ToBigQuery svc {| ProjectID := "p"; DatasetID := "d" |} "t") in
  fst (run empty_state) = OK tt /\
  trace (snd (run empty_state))
  = [EvQuery (select_from "spanner_sys.query_stats_top_minute");
     EvPut "p" "d" "t"
       [ {| Schema := queryStatsBigQueryTableSchema;
            SaverInsertID := "1600000000-_-42"; Struct := 0%nat |};
         {| Schema := queryStatsBigQueryTableSchema;
            SaverInsertID := "1600000000-_--7"; Struct := 1%nat |} ]].
Proof. vm_compute. split; reflexivity. Qed.

End pipeline_facts.

(* ===================================================================== *)
(** * Part III: further properties of the two files *)
(* ===================================================================== *)

(** ** The insert-id as a key *)

Section insert_id_key.
Import strings strconv spanner spanner_spec coverage_spec.

Lemma digits_val_no_underscore (s : string) :
  forall acc v, digits_val s acc = Some v -> Count s "_" = 0%nat.
Proof.
  induction s as [|c s IH]; intros acc v H; [reflexivity |].
  cbn [digits_val] in H. cbn [Count].
  destruct (digit_val c) as [d|] eqn:Hd; [| discriminate H].
  destruct (Ascii.eqb c "_") eqn:E.
  - apply Ascii.eqb_eq in E. subst c. discriminate Hd.
  - exact (IH _ _ H).
Qed.

(** A numeral holds no [_]. *)
Lemma FormatInt_no_underscore (i : Z) : Count (FormatInt i) "_" = 0%nat.
Proof.
  unfold FormatInt. destruct (Z.ltb_spec i 0) as [Hneg | Hpos].
  - cbn [Count]. change (Ascii.eqb "-" "_") with false. cbv iota.
    eapply digits_val_no_underscore. apply formatBits_val. lia.
  - eapply digits_val_no_underscore. apply formatBits_val. exact Hpos.
Qed.

(** Where the first part holds no [_], the separator ["-_-"] cuts a
    string in one way only. *)
Lemma separator_unique (a : string) :
  forall a' b b',
    Count a "_" = 0%nat -> Count a' "_" = 0%nat ->
    a +:+ "-_-" +:+ b = a' +:+ "-_-" +:+ b' -> a = a' /\ b = b'.
Proof.
  assert (forall r x y, Count (String "-" r) "_" = 0%nat ->
                        "-_-" +:+ x = String "-" r +:+ "-_-" +:+ y -> False) as Hoff.
  { intros r x y Hr H. rewrite append_cons in H.
    change ("-_-" +:+ x) with (String "-" (String "_" (String "-" x))) in H.
    injection H as H.
    destruct r as [|d r].
    - change ("" +:+ "-_-" +:+ y) with (String "-" (String "_" (String "-" y))) in H.
      discriminate H.
    - rewrite append_cons in H. injection H as <- _.
      cbn [Count] in Hr. change (Ascii.eqb "-" "_") with false in Hr.
      change (Ascii.eqb "_" "_") with true in Hr. discriminate Hr. }
  induction a as [|c a IH]; intros [|c' a'] b b' Ha Ha' H.
  - split; [reflexivity |]. rewrite !append_nil_l in H.
    now apply (append_inv_head "-_-").
  - exfalso. rewrite append_nil_l in H.
    assert (c' = "-"%char) as ->.
    { rewrite append_cons in H.
      change ("-_-" +:+ b) with (String "-" (String "_" (String "-" b))) in H.
      now injection H as <- _. }
    exact (Hoff a' b b' Ha' H).
  - exfalso. rewrite (append_nil_l ("-_-" +:+ b')) in H.
    assert (c = "-"%char) as ->.
    { rewrite append_cons in H.
      change ("-_-" +:+ b') with (String "-" (String "_" (String "-" b'))) in H.
      now injection H as -> _. }
    symmetry in H. exact (Hoff a b' b Ha H).
  - rewrite !append_cons in H. injection H as -> H.
    cbn [Count] in Ha, Ha'.
    destruct (Ascii.eqb c' "_"); [discriminate Ha |].
    destruct (IH a' b b' Ha Ha' H) as [-> ->]. split; reflexivity.
Qed.

Lemma insert_id_pair (s1 s2 : QueryStat) :
  insert_id s1 = insert_id s2 ->
  Unix (IntervalEnd s1) = Unix (IntervalEnd s2) /\ TextFingerprint s1 = TextFingerprint s2.
Proof.
  unfold insert_id. intros H.
  apply separator_unique in H as [Ha Hb]; try apply FormatInt_no_underscore.
  split; now apply FormatInt_inj.
Qed.

(** X1: two records get the same insert-id exactly when they end in the
    same Unix second and have the same fingerprint: different pairs never
    collide, and neither the nanoseconds of [IntervalEnd] nor any other
    field of the record plays a part. *)
Theorem ToInsertID_same_id_iff (s1 s2 : QueryStat) :
  snd (QueryStat_ToInsertID s1) = snd (QueryStat_ToInsertID s2) <->
  Unix (IntervalEnd s1) = Unix (IntervalEnd s2) /\ TextFingerprint s1 = TextFingerprint s2.
Proof.
  rewrite !QueryStat_ToInsertID_snd. split.
  - apply insert_id_pair.
  - unfold insert_id. intros [-> ->]. reflexivity.
Qed.

(** After [ToInsertID] the record is the same record with its insert-id
    written in; writing it again changes nothing. *)
Lemma stamp_stamp (qs : QueryStat) : stamp (stamp qs) = stamp qs.
Proof. reflexivity. Qed.

Lemma insert_id_stamp (qs : QueryStat) : insert_id (stamp qs) = insert_id qs.
Proof. reflexivity. Qed.

(** X2: [ToInsertID] is idempotent: on a receiver that is not nil, a
    second call returns the same string as the first and leaves the state
    as the first call left it, whatever [InsertID] held before. *)
Theorem ToInsertID_twice (st : state) (p : nat) (qs : QueryStat) :
  heap st !! p = Some qs ->
  fst (ToInsertID p (snd (ToInsertID p st))) = fst (ToInsertID p st) /\
  snd (ToInsertID p (snd (ToInsertID p st))) = snd (ToInsertID p st) /\
  fst (ToInsertID p st) = OK (insert_id qs).
Proof.
  intros H. rewrite (ToInsertID_run st p qs H). cbn [fst snd].
  rewrite (ToInsertID_run _ p (stamp qs)) by (cbn [heap]; apply lookup_insert_eq).
  cbn [fst snd heap trace]. rewrite insert_id_stamp.
  split; [reflexivity |]. split; [| reflexivity].
  f_equal. change (set_InsertID (insert_id qs) (stamp qs)) with (stamp qs).
  apply insert_insert_eq.
Qed.

Lemma ToInsertID_twice_witness :
  fst (ToInsertID 2%nat (snd (ToInsertID 2%nat sample_state))) = OK "1600000000-_--7".
Proof.
  destruct (ToInsertID_twice sample_state 2%nat (sample_stat 1600000000 (-7)))
    as (H1 & _ & H2).
  - vm_compute. reflexivity.
  - rewrite H1, H2. reflexivity.
Defined.

End insert_id_key.

(** ** [ToBigQuery]: nil pointers, the records afterwards, a second run *)

Section bigquery_more.
Import spanner spanner_spec coverage_spec.

(** A nil pointer anywhere in the list stops the loop with a panic, after
    the records before it were stamped and before anything is sent. *)
Lemma ToBigQuery_loop_nil (qss : list nat) :
  forall (sss : list StructSaver) (st : state),
    Exists (fun p => heap st !! p = None) qss ->
    exists msg st',
      ToBigQuery_loop qss sss st = (Panic msg, st') /\ trace st' = trace st.
Proof.
  induction qss as [|p qss IH]; intros sss st Hex; [inversion Hex |].
  cbn [ToBigQuery_loop]. unfold bind at 1.
  destruct (heap st !! p) as [qs|] eqn:Hp.
  - rewrite (ToInsertID_run st p qs Hp).
    apply Exists_cons in Hex as [Hhead | Htail]; [congruence |].
    destruct (IH (sss ++ [ {| Schema := queryStatsBigQueryTableSchema;
                              SaverInsertID := insert_id qs;
                              Struct := p |} ])
                 {| heap := <[p := set_InsertID (insert_id qs) qs]> (heap st);
                    trace := trace st |}) as (msg & st' & Hrun & Htr).
    + eapply Exists_impl; [exact Htail |]. cbn [heap]. intros q Hq.
      rewrite lookup_insert_ne; [exact Hq | congruence].
    + exists msg, st'. split; [exact Hrun | exact Htr].
  - unfold ToInsertID. rewrite Hp. eauto.
Qed.

(** X3: when one of the pointers handed to [ToBigQuery] is nil, the call
    panics and [Put] is never reached: nothing is sent to BigQuery, not
    even the entries of the records that came before the nil pointer. *)
Theorem ToBigQuery_nil_pointer (s : QueryStatsCopyService) (dataset : Dataset) (table : string)
        (qss : list nat) (st : state) :
  Exists (fun p => heap st !! p = None) qss ->
  exists msg,
    fst (ToBigQuery s dataset table qss st) = Panic msg /\
    trace (snd (ToBigQuery s dataset table qss st)) = trace st.
Proof.
  intros Hex. destruct (ToBigQuery_loop_nil qss [] st Hex) as (msg & st' & Hrun & Htr).
  assert (ToBigQuery s dataset table qss st = (Panic msg, st')) as ->
    by (unfold ToBigQuery, bind; now rewrite Hrun).
  exists msg. split; [reflexivity | exact Htr].
Qed.

Lemma ToBigQuery_nil_pointer_witness :
  exists msg,
    fst (ToBigQuery (sample_service []) {| ProjectID := "p"; DatasetID := "d" |} "t"
                    [1%nat; 3%nat; 2%nat] sample_state) = Panic msg /\
    trace (snd (ToBigQuery (sample_service []) {| ProjectID := "p"; DatasetID := "d" |} "t"
                           [1%nat; 3%nat; 2%nat] sample_state)) = [].
Proof.
  apply (ToBigQuery_nil_pointer (sample_service []) {| ProjectID := "p"; DatasetID := "d" |} "t"
                                [1%nat; 3%nat; 2%nat] sample_state).
  apply Exists_cons_tl, Exists_cons_hd. vm_compute. reflexivity.
Defined.

(** The heap the loop leaves: the listed records stamped, the others as
    they were. *)
Lemma ToBigQuery_loop_heap (qss : list nat) :
  forall (sss : list StructSaver) (st : state) (p : nat),
    Forall (fun q => is_Some (heap st !! q)) qss ->
    heap (snd (ToBigQuery_loop qss sss st)) !! p
    = if decide (p ∈ qss) then stamp <$> (heap st !! p) else heap st !! p.
Proof.
  induction qss as [|q qss IH]; intros sss st p Hall.
  - cbn [ToBigQuery_loop]. rewrite decide_False by apply not_elem_of_nil. reflexivity.
  - apply Forall_cons in Hall as [[qs Hq] Hall].
    cbn [ToBigQuery_loop]. unfold bind at 1. rewrite (ToInsertID_run st q qs Hq).
    rewrite IH.
    + cbn [heap]. destruct (decide (p = q)) as [-> | Hne].
      * rewrite lookup_insert_eq, Hq.
        rewrite (decide_True (P := q ∈ q :: qss)) by apply list_elem_of_here.
        destruct (decide (q ∈ qss)); reflexivity.
      * rewrite lookup_insert_ne by congruence.
        destruct (decide (p ∈ qss)) as [Hin | Hout].
        -- rewrite decide_True by (now apply list_elem_of_further). reflexivity.
        -- rewrite decide_False; [reflexivity |].
           rewrite elem_of_cons. intros [? | ?]; contradiction.
    + cbn [heap]. eapply Forall_impl; [exact Hall |]. intros r [v Hv].
      destruct (decide (q = r)) as [<- | Hne].
      * rewrite lookup_insert_eq. eauto.
      * rewrite lookup_insert_ne by exact Hne. eauto.
Qed.

(** X4: after [ToBigQuery] on pointers that are not nil, every record
    the list points to holds its insert-id in [InsertID] and is otherwise
    as before, and every other record is untouched; this is so whether
    [Put] succeeded or failed. *)
Theorem ToBigQuery_records_after (s : QueryStatsCopyService) (dataset : Dataset)
        (table : string) (qss : list nat) (st : state) :
  Forall (fun q => is_Some (heap st !! q)) qss ->
  forall p,
    heap (snd (ToBigQuery s dataset table qss st)) !! p
    = if decide (p ∈ qss) then stamp <$> (heap st !! p) else heap st !! p.
Proof.
  intros Hall p. rewrite <- (ToBigQuery_loop_heap qss [] st p Hall).
  destruct (ToBigQuery_run s dataset table qss st Hall) as (h' & Hrun & _).
  destruct (ToBigQuery_loop_run qss [] st Hall) as (h'' & Hloop & _).
  cbv zeta in Hrun. rewrite Hrun, Hloop. cbn [snd heap].
  unfold ToBigQuery in Hrun. unfold bind at 1 in Hrun. rewrite Hloop in Hrun.
  unfold bind, emit in Hrun. cbn [heap trace] in Hrun.
  destruct (Put (bq s) _ _ _ _ h''); injection Hrun as _ <-; reflexivity.
Qed.

Lemma ToBigQuery_records_after_witness :
  heap (snd (ToBigQuery (sample_service []) {| ProjectID := "p"; DatasetID := "d" |} "t"
                        [1%nat] sample_state)) !! 1%nat
  = Some (stamp (sample_stat 1600000000 42)) /\
  heap (snd (ToBigQuery (sample_service []) {| ProjectID := "p"; DatasetID := "d" |} "t"
                        [1%nat] sample_state)) !! 2%nat
  = Some (sample_stat 1600000000 (-7)).
Proof.
  assert (Forall (fun q => is_Some (heap sample_state !! q)) [1%nat]) as Hall
    by (repeat constructor; vm_compute; eauto).
  split.
  - rewrite (ToBigQuery_records_after (sample_service []) _ "t" [1%nat] sample_state Hall 1%nat).
    vm_compute. reflexivity.
  - rewrite (ToBigQuery_records_after (sample_service []) _ "t" [1%nat] sample_state Hall 2%nat).
    vm_compute. reflexivity.
Defined.

End bigquery_more.

Section bigquery_rerun.
Import spanner spanner_spec coverage_spec.

Lemma same_but_InsertID_is_Some (h h' : gmap nat QueryStat) (qss : list nat) :
  same_but_InsertID h h' ->
  Forall (fun q => is_Some (h !! q)) qss -> Forall (fun q => is_Some (h' !! q)) qss.
Proof.
  intros Hsame Hall. eapply Forall_impl; [exact Hall |]. intros q [v Hv].
  specialize (Hsame q). rewrite Hv in Hsame.
  destruct (h' !! q); [eauto | discriminate Hsame].
Qed.

(** X5: a second [ToBigQuery] on the same pointers sends the entries of
    the first one again, with the same insert-ids in the same order: the
    insert-ids written by the first run do not change what the second
    computes, so a destination that drops repeated insert-ids sees nothing
    new. *)
Theorem ToBigQuery_rerun (s : QueryStatsCopyService) (dataset : Dataset) (table : string)
        (qss : list nat) (st : state) :
  Forall (fun q => is_Some (heap st !! q)) qss ->
  exists sss,
    length sss = length qss /\
    trace (snd (ToBigQuery s dataset table qss st))
    = trace st ++ [EvPut (ProjectID dataset) (DatasetID dataset) table sss] /\
    trace (snd (ToBigQuery s dataset table qss (snd (ToBigQuery s dataset table qss st))))
    = trace st ++ [EvPut (ProjectID dataset) (DatasetID dataset) table sss;
                   EvPut (ProjectID dataset) (DatasetID dataset) table sss].
Proof.
  intros Hall.
  destruct (ToBigQuery_run s dataset table qss st Hall) as (h1 & Hrun1 & Hsame1).
  cbv zeta in Hrun1. rewrite Hrun1. cbn [snd].
  set (st1 := {| heap := h1;
                 trace := trace st ++ [EvPut (ProjectID dataset) (DatasetID dataset) table
                                             (map (saver_for (heap st)) qss)] |}).
  destruct (ToBigQuery_run s dataset table qss st1) as (h2 & Hrun2 & _).
  { apply (same_but_InsertID_is_Some (heap st)); assumption. }
  cbv zeta in Hrun2. rewrite Hrun2. cbn [snd trace heap st1].
  exists (map (saver_for (heap st)) qss).
  split; [apply length_map |]. split; [reflexivity |].
  assert (map (saver_for h1) qss = map (saver_for (heap st)) qss) as ->
    by (apply map_ext; intros q; symmetry; now apply saver_for_same).
  now rewrite <- app_assoc.
Qed.

Lemma ToBigQuery_rerun_witness :
  exists sss,
    length sss = 2%nat /\
    trace (snd (ToBigQuery (sample_service []) {| ProjectID := "p"; DatasetID := "d" |} "t"
                  [1%nat; 2%nat]
                  (snd (ToBigQuery (sample_service []) {| ProjectID := "p"; DatasetID := "d" |}
                          "t" [1%nat; 2%nat] sample_state))))
    = [EvPut "p" "d" "t" sss; EvPut "p" "d" "t" sss].
Proof.
  destruct (ToBigQuery_rerun (sample_service []) {| ProjectID := "p"; DatasetID := "d" |} "t"
                             [1%nat; 2%nat] sample_state) as (sss & Hlen & _ & Htwo).
  - repeat constructor; vm_compute; eauto.
  - exists sss. split; [exact Hlen | exact Htwo].
Defined.

End bigquery_rerun.

(** ** [GetQueryStats]: rows that arrive, rows that fail *)

Section fetch_more.
Import spanner spanner_spec coverage_spec.

(** The row loop over rows that all decode: one new record per row. *)
Lemma GetQueryStats_loop_rows_ok (rs : list QueryStat) :
  forall (rets : list nat) (st : state),
  exists ps h',
    GetQueryStats_loop (rows_ok rs) rets st
    = (OK (rets ++ ps), {| heap := h'; trace := trace st |}) /\
    length ps = length rs /\
    NoDup ps /\
    (forall p, p ∈ ps -> heap st !! p = None) /\
    (forall p, p ∉ ps -> h' !! p = heap st !! p) /\
    (forall i p r, ps !! i = Some p -> rs !! i = Some r -> h' !! p = Some r).
Proof.
  induction rs as [|r rs IH]; intros rets st.
  - exists [], (heap st). rewrite app_nil_r. cbn [rows_ok map GetQueryStats_loop].
    split; [now destruct st |]. split; [reflexivity |]. split; [constructor |].
    split; [intros p Hp; now apply not_elem_of_nil in Hp |].
    split; [reflexivity |]. intros i p r' Hp. now rewrite lookup_nil in Hp.
  - cbn [rows_ok map GetQueryStats_loop]. unfold bind at 1, alloc.
    set (p0 := fresh (dom (heap st))).
    assert (heap st !! p0 = None) as Hfresh
      by (apply not_elem_of_dom; apply is_fresh).
    destruct (IH (rets ++ [p0]) {| heap := <[p0 := r]> (heap st); trace := trace st |})
      as (ps & h' & Hrun & Hlen & Hnd & Hnew & Hold & Hat).
    cbn [heap trace] in *.
    assert (p0 ∉ ps) as Hp0.
    { intros Hin. specialize (Hnew p0 Hin). now rewrite lookup_insert_eq in Hnew. }
    exists (p0 :: ps), h'. fold (rows_ok rs). rewrite Hrun, <- app_assoc.
    split; [reflexivity |]. split; [cbn [length]; now rewrite Hlen |].
    split; [now constructor |].
    split; [| split].
    + intros p Hp. apply elem_of_cons in Hp as [-> | Hp]; [exact Hfresh |].
      specialize (Hnew p Hp).
      apply lookup_insert_None in Hnew. tauto.
    + intros p Hp. rewrite not_elem_of_cons in Hp. destruct Hp as [Hne Hp].
      rewrite (Hold p Hp). now rewrite lookup_insert_ne by congruence.
    + intros [|i] p r' Hp Hr; cbn in Hp, Hr.
      * injection Hp as <-. injection Hr as <-.
        rewrite (Hold p0 Hp0). apply lookup_insert_eq.
      * exact (Hat i p r' Hp Hr).
Qed.

(** X6: when every row of the result set arrives and decodes,
    [GetQueryStats] returns one pointer per row, in row order; the
    pointers are pairwise different and new, each points to the record
    decoded from its row, and the records that were there before are not
    touched. *)
Theorem GetQueryStats_rows_ok (sp : SpannerClient) (bqc : BigQueryClient)
        (svc : QueryStatsCopyService) (table : string) (rs : list QueryStat) (st : state) :
  NewQueryStatsCopyService sp bqc = OK svc ->
  Query sp (select_from table) = rows_ok rs ->
  exists ps,
    fst (GetQueryStats svc table st) = OK ps /\
    length ps = length rs /\
    NoDup ps /\
    (forall p, p ∈ ps -> heap st !! p = None) /\
    (forall p, p ∉ ps -> heap (snd (GetQueryStats svc table st)) !! p = heap st !! p) /\
    (forall i p r, ps !! i = Some p -> rs !! i = Some r ->
                   heap (snd (GetQueryStats svc table st)) !! p = Some r).
Proof.
  intros Hnew Hrows.
  destruct (NewQueryStatsCopyService_template sp bqc svc Hnew) as (Ht & Hsp & _).
  unfold GetQueryStats. rewrite Ht, Execute_query_template, Hsp.
  unfold bind, emit. rewrite Hrows.
  destruct (GetQueryStats_loop_rows_ok rs []
              {| heap := heap st; trace := trace st ++ [EvQuery (select_from table)] |})
    as (ps & h' & Hrun & Hrest).
  rewrite Hrun. cbn [fst snd heap app] in *. exists ps. split; [reflexivity | exact Hrest].
Qed.

Lemma GetQueryStats_rows_ok_witness :
  exists ps,
    fst (GetQueryStats (sample_service (rows_ok [sample_stat 1600000000 42;
                                                 sample_stat 1600000000 (-7)]))
                       queryStatsTopMinuteTable sample_state) = OK ps /\
    length ps = 2%nat /\ NoDup ps.
Proof.
  destruct (GetQueryStats_rows_ok
              (sample_spanner (rows_ok [sample_stat 1600000000 42; sample_stat 1600000000 (-7)]))
              sample_bq
              (sample_service (rows_ok [sample_stat 1600000000 42; sample_stat 1600000000 (-7)]))
              queryStatsTopMinuteTable
              [sample_stat 1600000000 42; sample_stat 1600000000 (-7)] sample_state)
    as (ps & H1 & H2 & H3 & _).
  - vm_compute. reflexivity.
  - reflexivity.
  - exists ps. split; [exact H1 |]. split; [exact H2 | exact H3].
Defined.

(** The row loop stops at the first row that fails. *)
Lemma GetQueryStats_loop_first_error (good : list QueryStat) (bad : rowItem)
      (rest : list rowItem) (e : error) :
  row_error bad = Some e ->
  forall (rets : list nat) (st : state),
    fst (GetQueryStats_loop (rows_ok good ++ bad :: rest) rets st) = Err (WithStack e).
Proof.
  intros Hbad. induction good as [|r good IH]; intros rets st.
  - cbn [rows_ok map app]. destruct bad as [e' | [r' | e' | m]]; try discriminate Hbad;
      injection Hbad as ->; reflexivity.
  - cbn [rows_ok map app GetQueryStats_loop]. unfold bind at 1, alloc. apply IH.
Qed.

(** X7: when a row fails, in [iter.Next] or in [row.ToStruct],
    [GetQueryStats] returns that error wrapped by [errors.WithStack] and no
    record at all: the rows decoded before the failure are dropped, the
    rows after it are not read. *)
Theorem GetQueryStats_first_error (sp : SpannerClient) (bqc : BigQueryClient)
        (svc : QueryStatsCopyService) (table : string)
        (good : list QueryStat) (bad : rowItem) (rest : list rowItem) (e : error)
        (st : state) :
  NewQueryStatsCopyService sp bqc = OK svc ->
  Query sp (select_from table) = rows_ok good ++ bad :: rest ->
  row_error bad = Some e ->
  fst (GetQueryStats svc table st) = Err (WithStack e).
Proof.
  intros Hnew Hrows Hbad.
  destruct (NewQueryStatsCopyService_template sp bqc svc Hnew) as (Ht & Hsp & _).
  unfold GetQueryStats. rewrite Ht, Execute_query_template, Hsp.
  unfold bind, emit. rewrite Hrows.
  now apply GetQueryStats_loop_first_error.
Qed.

Lemma GetQueryStats_first_error_witness :
  fst (GetQueryStats
         (sample_service [Row (OK (sample_stat 1600000000 42));
                          Row (Err (ErrExternal "type mismatch"));
                          Row (OK (sample_stat 1600000000 (-7)))])
         queryStatsTopMinuteTable empty_state)
  = Err (WithStack (ErrExternal "type mismatch")).
Proof.
  apply (GetQueryStats_first_error
           (sample_spanner [Row (OK (sample_stat 1600000000 42));
                            Row (Err (ErrExternal "type mismatch"));
                            Row (OK (sample_stat 1600000000 (-7)))])
           sample_bq _ queryStatsTopMinuteTable
           [sample_stat 1600000000 42] (Row (Err (ErrExternal "type mismatch")))
           [Row (OK (sample_stat 1600000000 (-7)))]).
  - vm_compute. reflexivity.
  - reflexivity.
  - reflexivity.
Defined.

(** X8: [NewQueryStatsCopyService] cannot fail: the template is a
    constant that parses, so for any two clients the constructor returns a
    service that holds these clients and whose template gives, for every
    table name, the select statement from that table. *)
Theorem NewQueryStatsCopyService_succeeds (sp : SpannerClient) (bqc : BigQueryClient) :
  exists svc,
    NewQueryStatsCopyService sp bqc = OK svc /\
    spanner svc = sp /\ bq svc = bqc /\
    forall table,
      template.Execute (queryStatsTopQueryTemplate svc)
                       (QueryStatsParam_field {| Table := table |})
      = OK (select_from table).
Proof.
  destruct (NewQueryStatsCopyService_ok sp bqc) as [svc Hnew].
  destruct (NewQueryStatsCopyService_template sp bqc svc Hnew) as (Ht & Hsp & Hbq).
  exists svc. split; [exact Hnew |]. split; [exact Hsp |]. split; [exact Hbq |].
  intros table. rewrite Ht. apply Execute_query_template.
Qed.

End fetch_more.

(** ** Fetch, then copy *)

Section fetch_then_copy_more.
Import spanner spanner_spec coverage_spec.

Lemma GetQueryStats_run_rows_ok (sp : SpannerClient) (bqc : BigQueryClient)
      (svc : QueryStatsCopyService) (table : string) (rs : list QueryStat) (st : state) :
  NewQueryStatsCopyService sp bqc = OK svc ->
  Query sp (select_from table) = rows_ok rs ->
  exists ps h',
    GetQueryStats svc table st
    = (OK ps, {| heap := h'; trace := trace st ++ [EvQuery (select_from table)] |}) /\
    length ps = length rs /\
    (forall i p r, ps !! i = Some p -> rs !! i = Some r -> h' !! p = Some r).
Proof.
  intros Hnew Hrows.
  destruct (NewQueryStatsCopyService_template sp bqc svc Hnew) as (Ht & Hsp & _).
  unfold GetQueryStats. rewrite Ht, Execute_query_template, Hsp.
  unfold bind, emit. rewrite Hrows.
  destruct (GetQueryStats_loop_rows_ok rs []
              {| heap := heap st; trace := trace st ++ [EvQuery (select_from table)] |})
    as (ps & h' & Hrun & Hlen & _ & _ & _ & Hat).
  rewrite Hrun. cbn [app trace]. exists ps, h'. repeat split; assumption.
Qed.

Lemma insert_ids_of_savers (h : gmap nat QueryStat) (ps : list nat) :
  forall rs : list QueryStat,
    length ps = length rs ->
    (forall i p r, ps !! i = Some p -> rs !! i = Some r -> h !! p = Some r) ->
    map SaverInsertID (map (saver_for h) ps) = map insert_id rs.
Proof.
  induction ps as [|p ps IH]; intros [|r rs] Hlen Hat; try discriminate Hlen; [reflexivity |].
  cbn [map]. f_equal.
  - unfold saver_for. now rewrite (Hat 0%nat p r eq_refl eq_refl).
  - apply IH; [now injection Hlen |].
    intros i q r' Hq Hr. exact (Hat (S i) q r' Hq Hr).
Qed.

Lemma allocated_of_rows (h : gmap nat QueryStat) (ps : list nat) (rs : list QueryStat) :
  length ps = length rs ->
  (forall i p r, ps !! i = Some p -> rs !! i = Some r -> h !! p = Some r) ->
  Forall (fun p => is_Some (h !! p)) ps.
Proof.
  intros Hlen Hat. apply Forall_lookup. intros i p Hp.
  destruct (lookup_lt_is_Some_2 rs i) as [r Hr].
  { rewrite <- Hlen. eapply lookup_lt_Some. exact Hp. }
  rewrite (Hat i p r Hp Hr). eauto.
Qed.

(** X9: [GetQueryStats] followed by [ToBigQuery] on what it returned,
    over a result set whose rows all decode: the run does not panic, it
    sends one query and then one [Put], the [Put] carries one entry per
    row, in row order, with the insert-id of that row, and the outcome of
    the run is the verdict of that [Put]. *)
Theorem fetch_then_copy_entries (sp : SpannerClient) (bqc : BigQueryClient)
        (svc : QueryStatsCopyService) (table : string) (dataset : Dataset) (dst : string)
        (rs : list QueryStat) (st : state) :
  NewQueryStatsCopyService sp bqc = OK svc ->
  Query sp (select_from table) = rows_ok rs ->
  exists sss,
    trace (snd (bind (GetQueryStats svc table) (ToBigQuery svc dataset dst) st))
    = trace st ++ [EvQuery (select_from table);
                   EvPut (ProjectID dataset) (DatasetID dataset) dst sss] /\
    map SaverInsertID sss = map insert_id rs /\
    map Schema sss = map (fun _ => queryStatsBigQueryTableSchema) rs /\
    fst (bind (GetQueryStats svc table) (ToBigQuery svc dataset dst) st)
    = match Put bqc (ProjectID dataset) (DatasetID dataset) dst sss
                (heap (snd (bind (GetQueryStats svc table) (ToBigQuery svc dataset dst) st)))
      with
      | Some err => Err err
      | None => OK tt
      end.
Proof.
  intros Hnew Hrows.
  destruct (NewQueryStatsCopyService_template sp bqc svc Hnew) as (_ & _ & Hbq).
  destruct (GetQueryStats_run_rows_ok sp bqc svc table rs st Hnew Hrows)
    as (ps & h' & Hfetch & Hlen & Hat).
  set (st1 := {| heap := h'; trace := trace st ++ [EvQuery (select_from table)] |}).
  assert (bind (GetQueryStats svc table) (ToBigQuery svc dataset dst) st
          = ToBigQuery svc dataset dst ps st1) as ->
    by (unfold bind at 1; now rewrite Hfetch).
  destruct (ToBigQuery_run svc dataset dst ps st1) as (h'' & Hcopy & _).
  { exact (allocated_of_rows h' ps rs Hlen Hat). }
  cbv zeta in Hcopy. rewrite Hcopy. cbn [fst snd heap trace st1]. rewrite Hbq.
  exists (map (saver_for h') ps).
  split; [now rewrite <- app_assoc |].
  split; [exact (insert_ids_of_savers h' ps rs Hlen Hat) |].
  split; [| reflexivity].
  rewrite map_map. cbn [saver_for Schema].
  clear -Hlen. revert rs Hlen.
  induction ps as [|p ps IH]; intros [|r rs] Hlen; try discriminate Hlen; [reflexivity |].
  cbn [map]. f_equal. apply IH. now injection Hlen.
Qed.

Lemma fetch_then_copy_entries_witness :
  exists sss,
    trace (snd (bind (GetQueryStats
                        (sample_service (rows_ok [sample_stat 1600000000 42;
                                                  sample_stat 1600000000 (-7)]))
                        queryStatsTopMinuteTable)
                     (ToBigQuery
                        (sample_service (rows_ok [sample_stat 1600000000 42;
                                                  sample_stat 1600000000 (-7)]))
                        {| ProjectID := "p"; DatasetID := "d" |} "t")
                     empty_state))
    = [EvQuery (select_from queryStatsTopMinuteTable); EvPut "p" "d" "t" sss] /\
    map SaverInsertID sss = ["1600000000-_-42"; "1600000000-_--7"].
Proof.
  destruct (fetch_then_copy_entries
              (sample_spanner (rows_ok [sample_stat 1600000000 42; sample_stat 1600000000 (-7)]))
              sample_bq
              (sample_service (rows_ok [sample_stat 1600000000 42; sample_stat 1600000000 (-7)]))
              queryStatsTopMinuteTable {| ProjectID := "p"; DatasetID := "d" |} "t"
              [sample_stat 1600000000 42; sample_stat 1600000000 (-7)] empty_state)
    as (sss & Htrace & Hids & _).
  - vm_compute. reflexivity.
  - reflexivity.
  - exists sss. split; [exact Htrace |]. rewrite Hids. reflexivity.
Defined.

End fetch_then_copy_more.

(** ** [metadata]: what the extraction functions accept and return *)

Section extraction_more.
Import strings metadata metadata_spec coverage_spec.

Lemma Count_after_last (s : string) (sep : ascii) : Count (after_last s sep) sep = 0%nat.
Proof.
  induction s as [|c s IH]; [reflexivity |]. cbn [after_last].
  destruct (Nat.ltb_spec 0 (Count s sep)) as [Hpos | Hzero]; [exact IH |].
  destruct (Ascii.eqb c sep) eqn:E; [lia |].
  cbn [Count]. rewrite E. lia.
Qed.

Lemma after_last_suffix (s : string) (sep : ascii) :
  s = after_last s sep \/ exists p, s = p +:+ String sep (after_last s sep).
Proof.
  induction s as [|c s IH]; [now left |]. cbn [after_last].
  destruct (Nat.ltb_spec 0 (Count s sep)) as [Hpos | Hzero].
  - right. destruct IH as [Heq | [p Hp]].
    + pose proof (Count_after_last s sep) as H0. rewrite <- Heq in H0. lia.
    + exists (String c p). rewrite append_cons. now rewrite <- Hp.
  - destruct (Ascii.eqb c sep) eqn:E; [| now left].
    right. exists "". apply Ascii.eqb_eq in E. now subst c.
Qed.

(** X10: [ExtractionZone] accepts every string: it never fails and never
    panics, with or without a [/] in its input.  What it returns holds no
    [/] and is the end of the input, the whole input or the part after a
    [/]; applied to its own result it returns it again. *)
Theorem ExtractionZone_total (metaZone : string) :
  exists zone,
    ExtractionZone metaZone = OK zone /\
    Count zone "/" = 0%nat /\
    (metaZone = zone \/ exists p, metaZone = p +:+ String "/" zone) /\
    ExtractionZone zone = OK zone.
Proof.
  exists (final_segment metaZone). unfold final_segment.
  split; [apply ExtractionZone_eq |].
  split; [apply Count_after_last |].
  split; [apply after_last_suffix |].
  rewrite ExtractionZone_eq. unfold final_segment.
  now rewrite (after_last_no_sep _ _ (Count_after_last metaZone "/")).
Qed.

Lemma substring_two_more (n : nat) :
  forall v, String.length v = (n + 2)%nat ->
            exists c1 c2, v = two_more (substring 0 n v) c1 c2.
Proof.
  induction n as [|n IH]; intros v Hlen.
  - destruct v as [|c1 [|c2 [|c3 v]]]; try discriminate Hlen.
    exists c1, c2. reflexivity.
  - destruct v as [|c v]; [discriminate Hlen |].
    destruct (IH v) as (c1 & c2 & Hv); [now injection Hlen |].
    exists c1, c2. cbn [substring]. unfold two_more in *.
    rewrite append_cons. now rewrite <- Hv.
Qed.

(** X11: [ExtractionRegion] never panics.  It fails, with
    [InvalidArgument] and the input as context, exactly when the final
    segment has fewer than 3 bytes; otherwise it returns a non-empty
    region, and the zone [ExtractionZone] returns for the same input is
    that region and two more bytes.  Which two bytes they are is not
    looked at, nor is anything before the last [/]. *)
Theorem ExtractionRegion_cases (metaZone : string) :
  match ExtractionRegion metaZone with
  | OK region =>
      (3 <= String.length (final_segment metaZone))%nat /\
      region <> "" /\
      exists c1 c2, ExtractionZone metaZone = OK (two_more region c1 c2)
  | Err e =>
      (String.length (final_segment metaZone) < 3)%nat /\
      e = ErrInvalidArgument required_format [("input_argument", metaZone)] None
  | Panic _ => False
  end.
Proof.
  rewrite ExtractionRegion_eq, ExtractionZone_eq. cbv zeta.
  destruct (Nat.ltb_spec (String.length (final_segment metaZone)) 3) as [Hlt | Hge].
  - split; [exact Hlt | reflexivity].
  - split; [exact Hge |].
    destruct (substring_two_more (String.length (final_segment metaZone) - 2)
                                 (final_segment metaZone)) as (c1 & c2 & Hv); [lia |].
    split.
    + destruct (final_segment metaZone) as [|c v]; [simpl in Hge; lia |].
      cbn [String.length] in *.
      replace (S (String.length v) - 2)%nat with (S (String.length v - 2)) by lia.
      cbn [substring]. discriminate.
    + exists c1, c2. now rewrite <- Hv.
Qed.

End extraction_more.

(** ** [metadata]: the metadata server *)

Section server_more.
Import strings metadata metadata_spec coverage_spec.

Lemma getMetadata_cases (w : World) (path : string) :
  getMetadata w path =
  match http_get w (metadata_url path) metadata_header with
  | NewRequestError e => Err (Wrapf ("failed http.NewRequest. path=" +:+ path +:+ " : ") e)
  | DoError e => Err (Wrapf ("failed http.SendReq. path=" +:+ path +:+ " : ") e)
  | ReadAllError e => Err (Wrapf ("failed read response.Body. path=" +:+ path +:+ " : ") e)
  | Response code b =>
      if code =? 200
      then OK b
      else Err (Errorf ("metadata server response is " +:+ strconv.FormatInt code +:+ ":" +:+ b))
  end.
Proof.
  unfold getMetadata, metadata_url, metadata_header, StatusOK.
  destruct (http_get w _ _) as [e | e | e | code b]; try reflexivity.
  now destruct (code =? 200).
Qed.

Lemma getMetadata_no_panic (w : World) (path : string) (m : string) :
  getMetadata w path <> Panic m.
Proof.
  rewrite getMetadata_cases.
  destruct (http_get w _ _) as [e | e | e | code b]; try discriminate.
  destruct (code =? 200); discriminate.
Qed.

(** X13: [getMetadata] returns a body exactly when the GET of
    [computeMetadata/v1/instance/{path}], sent with the header
    [Metadata-Flavor: Google], is answered with status 200, and then it
    returns that body as it is.  Every other status, the other 2xx ones
    included, is an error that quotes the status and the body. *)
Theorem getMetadata_status (w : World) (path : string) :
  (forall b, getMetadata w path = OK b <->
             http_get w (metadata_url path) metadata_header = Response 200 b) /\
  (forall code b,
      http_get w (metadata_url path) metadata_header = Response code b -> code <> 200 ->
      getMetadata w path
      = Err (Errorf ("metadata server response is " +:+ strconv.FormatInt code +:+ ":" +:+ b))).
Proof.
  rewrite getMetadata_cases. split.
  - intros b. destruct (http_get w _ _) as [e | e | e | code b']; try (split; discriminate).
    destruct (Z.eqb_spec code 200) as [-> | Hne]; split.
    + now intros [= ->].
    + now intros [= ->].
    + discriminate.
    + intros [= Hc _]. contradiction.
  - intros code b -> Hne.
    destruct (Z.eqb_spec code 200) as [Heq | _]; [contradiction | reflexivity].
Qed.

(** X12: in the managed environment [Zone] and [Region] read the same
    metadata entry, [zone].  When the server answers, [Zone] cannot fail
    and returns the part after the last [/]; whenever [Region] returns a
    region, [Zone] returns that region and two more bytes.  When the
    request fails, both fail with the same error, the cause wrapped as
    "failed get Zone". *)
Theorem Region_Zone_managed (w : World) :
  OnGCE w = true ->
  (forall body, getMetadata w "zone" = OK body ->
     Zone w = OK (final_segment body) /\ Region w = ExtractionRegion body) /\
  (forall region, Region w = OK region -> exists c1 c2, Zone w = OK (two_more region c1 c2)) /\
  (forall e, getMetadata w "zone" = Err e ->
     Zone w = Err (Wrapf "failed get Zone : " e) /\
     Region w = Err (Wrapf "failed get Zone : " e)).
Proof.
  intros Hon. unfold Zone, Region. rewrite Hon. cbn [negb].
  split; [| split].
  - intros body ->. split; [apply ExtractionZone_eq | reflexivity].
  - intros region.
    destruct (getMetadata w "zone") as [body | e | m]; try discriminate.
    intros Hr. pose proof (ExtractionRegion_eq body) as Hcases.
    rewrite Hr in Hcases. cbv zeta in Hcases.
    destruct (Nat.ltb_spec (String.length (final_segment body)) 3) as [Hlt | Hge];
      [discriminate Hcases |].
    injection Hcases as ->.
    destruct (substring_two_more (String.length (final_segment body) - 2)
                                 (final_segment body)) as (c1 & c2 & Hv); [lia |].
    exists c1, c2. now rewrite ExtractionZone_eq, <- Hv.
  - intros e ->. split; reflexivity.
Qed.

Lemma Region_Zone_managed_witness :
  Region (gce_world (OK "p") (fun _ => Response 200 "projects/123/zones/us-central1-a"))
  = OK "us-central1" /\
  Zone (gce_world (OK "p") (fun _ => Response 200 "projects/123/zones/us-central1-a"))
  = OK "us-central1-a".
Proof.
  destruct (Region_Zone_managed
              (gce_world (OK "p") (fun _ => Response 200 "projects/123/zones/us-central1-a"))
              eq_refl) as (Hbody & _ & _).
  destruct (Hbody "projects/123/zones/us-central1-a" eq_refl) as [Hz Hr].
  split; [rewrite Hr; reflexivity | rewrite Hz; reflexivity].
Defined.

(** X14: in the managed environment [ServiceAccountEmail] is the body of
    the metadata entry [service-accounts/default/email] when the server
    answers 200, and otherwise fails with the cause wrapped as "failed get
    ServiceAccountEmail"; the environment variables play no part. *)
Theorem ServiceAccountEmail_managed (w : World) :
  OnGCE w = true ->
  (forall sa, ServiceAccountEmail w = OK sa <->
     http_get w (metadata_url "service-accounts/default/email") metadata_header
     = Response 200 sa) /\
  (forall e, ServiceAccountEmail w = Err e ->
     exists cause, getMetadata w "service-accounts/default/email" = Err cause /\
                   e = Wrapf "failed get ServiceAccountEmail : " cause) /\
  (forall key value, ServiceAccountEmail (setenv key value w) = ServiceAccountEmail w).
Proof.
  intros Hon. split; [| split].
  - intros sa. unfold ServiceAccountEmail. rewrite Hon. cbn [negb].
    rewrite getMetadata_cases.
    destruct (http_get w _ _) as [e | e | e | code b]; try (split; discriminate).
    destruct (Z.eqb_spec code 200) as [-> | Hne]; split.
    + now intros [= ->].
    + now intros [= ->].
    + discriminate.
    + intros [= Hc _]. contradiction.
  - intros e. unfold ServiceAccountEmail. rewrite Hon. cbn [negb].
    destruct (getMetadata w _) as [b | cause | m]; try discriminate.
    intros [= <-]. eauto.
  - intros key value. unfold ServiceAccountEmail, setenv, getMetadata. cbn [OnGCE http_get].
    now rewrite Hon.
Qed.

Lemma ServiceAccountEmail_managed_witness :
  ServiceAccountEmail
    (setenv "GCLOUD_SERVICE_ACCOUNT" "other@example.com"
            (gce_world (OK "p") (fun _ => Response 200 "sa@p.iam.gserviceaccount.com")))
  = OK "sa@p.iam.gserviceaccount.com".
Proof.
  destruct (ServiceAccountEmail_managed
              (gce_world (OK "p") (fun _ => Response 200 "sa@p.iam.gserviceaccount.com"))
              eq_refl) as (Hok & _ & Henv).
  rewrite Henv. apply Hok. reflexivity.
Defined.

End server_more.

(** ** [metadata]: project, service account, attributes *)

Section identity_more.
Import strings metadata metadata_spec coverage_spec.

(** X15: a project id that [ProjectID] returns is never empty, in
    either environment.  Its failures are [NotFound], or, in the managed
    environment, the error of the metadata library wrapped as "failed get
    project id from metadata server"; and in the managed environment the
    environment variables are not read at all. *)
Theorem ProjectID_results (w : World) :
  (forall p, ProjectID w = OK p -> p <> "") /\
  (forall e, ProjectID w = Err e ->
     is_NotFound e = true \/
     (OnGCE w = true /\
      exists cause, metadata_ProjectID w = Err cause /\
                    e = Wrapf "failed get project id from metadata server: " cause)) /\
  (OnGCE w = true -> forall key value, ProjectID (setenv key value w) = ProjectID w).
Proof.
  split; [| split].
  - intros p. unfold ProjectID. destruct (OnGCE w); cbn [negb].
    + destruct (metadata_ProjectID w) as [q | e | m]; try discriminate.
      destruct (String.eqb_spec q "") as [-> | Hq]; [discriminate |].
      now intros [= <-].
    + destruct (String.eqb_spec (Getenv w "GOOGLE_CLOUD_PROJECT") "") as [Hg | Hg]; cbn [negb].
      * destruct (String.eqb_spec (Getenv w "GCLOUD_PROJECT") "") as [Hc | Hc]; cbn [negb];
          [discriminate |]. now intros [= <-].
      * now intros [= <-].
  - intros e. unfold ProjectID. destruct (OnGCE w); cbn [negb].
    + destruct (metadata_ProjectID w) as [q | cause | m]; try discriminate.
      * destruct (String.eqb q ""); [| discriminate]. intros [= <-]. now left.
      * intros [= <-]. right. split; [reflexivity |]. eauto.
    + destruct (String.eqb (Getenv w "GOOGLE_CLOUD_PROJECT") ""); cbn [negb]; [| discriminate].
      destruct (String.eqb (Getenv w "GCLOUD_PROJECT") ""); cbn [negb]; [| discriminate].
      intros [= <-]. now left.
  - intros Hon key value. unfold ProjectID, setenv. cbn [OnGCE metadata_ProjectID].
    now rewrite Hon.
Qed.

Lemma Count_one_split (s : string) (sep : ascii) :
  Count s sep = 1%nat ->
  exists rest,
    s = before_first s sep +:+ String sep rest /\
    Count (before_first s sep) sep = 0%nat /\ Count rest sep = 0%nat.
Proof.
  induction s as [|c s IH]; [discriminate |]. cbn [Count before_first].
  destruct (Ascii.eqb c sep) eqn:E.
  - intros [= H]. exists s. apply Ascii.eqb_eq in E. subst c.
    split; [reflexivity |]. split; [reflexivity | exact H].
  - intros H. destruct (IH H) as (rest & Hs & Hb & Hr).
    exists rest. rewrite append_cons. cbn [Count]. rewrite E.
    split; [now rewrite <- Hs |]. split; assumption.
Qed.

(** X16: a name that [ServiceAccountName] returns is the part of the
    e-mail before its only [@]: the e-mail is that name, [@], and a rest,
    and neither the name nor the rest holds an [@].  A failure of the
    e-mail lookup is passed on as it is. *)
Theorem ServiceAccountName_parts (w : World) :
  (forall name, ServiceAccountName w = OK name ->
     exists domain,
       ServiceAccountEmail w = OK (name +:+ String "@" domain) /\
       Count name "@" = 0%nat /\ Count domain "@" = 0%nat) /\
  (forall e, ServiceAccountEmail w = Err e -> ServiceAccountName w = Err e).
Proof.
  split.
  - intros name Hname.
    destruct (ServiceAccountEmail w) as [sa | e | m] eqn:Hsa.
    + rewrite (ServiceAccountName_eq w sa Hsa) in Hname.
      destruct (Nat.eqb_spec (Count sa "@") 1) as [Hone | Hne]; [| discriminate Hname].
      injection Hname as <-.
      destruct (Count_one_split sa "@" Hone) as (rest & Hs & Hb & Hr).
      exists rest. split; [now rewrite <- Hs |]. split; assumption.
    + unfold ServiceAccountName in Hname. rewrite Hsa in Hname. discriminate Hname.
    + unfold ServiceAccountName in Hname. rewrite Hsa in Hname. discriminate Hname.
  - intros e He. unfold ServiceAccountName. now rewrite He.
Qed.

(** X17: outside the managed environment, with [GCLOUD_SERVICE_ACCOUNT]
    absent, the three service-account functions part ways:
    [ServiceAccountEmail] returns the empty string without error,
    [ServiceAccountName] fails on it, and [ServiceAccountID], which makes
    no check of the e-mail, returns ["projects/P/serviceAccounts/"] for the
    project [P]. *)
Theorem service_account_absent (w : World) :
  OnGCE w = false ->
  environ w !! "GCLOUD_SERVICE_ACCOUNT" = None ->
  ServiceAccountEmail w = OK "" /\
  ServiceAccountName w = Err (InvalidFormat "") /\
  (forall P, ProjectID w = OK P ->
             ServiceAccountID w = OK ("projects/" +:+ P +:+ "/serviceAccounts/")).
Proof.
  intros Hoff Habs.
  assert (ServiceAccountEmail w = OK "") as Hsa
    by (unfold ServiceAccountEmail, Getenv; now rewrite Hoff, Habs).
  split; [exact Hsa |]. split.
  - now rewrite (ServiceAccountName_eq w "" Hsa).
  - intros P HP. unfold ServiceAccountID. now rewrite Hsa, HP.
Qed.

Lemma service_account_absent_witness :
  ServiceAccountName (env_world {[ "GOOGLE_CLOUD_PROJECT" := "p" ]}) = Err (InvalidFormat "") /\
  ServiceAccountID (env_world {[ "GOOGLE_CLOUD_PROJECT" := "p" ]})
  = OK "projects/p/serviceAccounts/".
Proof.
  destruct (service_account_absent (env_world {[ "GOOGLE_CLOUD_PROJECT" := "p" ]}))
    as (_ & Hname & Hid); [reflexivity | vm_compute; reflexivity |].
  split; [exact Hname |]. apply (Hid "p"). vm_compute. reflexivity.
Defined.

(** X18: outside the managed environment [ServiceAccountID] fails exactly
    when [ProjectID] fails, and with the same error; otherwise it is the
    project id and the value of [GCLOUD_SERVICE_ACCOUNT] put into
    ["projects/{project}/serviceAccounts/{email}"], whatever that value is. *)
Theorem ServiceAccountID_env (w : World) :
  OnGCE w = false ->
  (forall e, ServiceAccountID w = Err e <-> ProjectID w = Err e) /\
  (forall P, ProjectID w = OK P ->
     ServiceAccountID w
     = OK ("projects/" +:+ P +:+ "/serviceAccounts/" +:+ Getenv w "GCLOUD_SERVICE_ACCOUNT")).
Proof.
  intros Hoff.
  assert (ServiceAccountEmail w = OK (Getenv w "GCLOUD_SERVICE_ACCOUNT")) as Hsa
    by (unfold ServiceAccountEmail; now rewrite Hoff).
  unfold ServiceAccountID. rewrite Hsa. split.
  - intros e. destruct (ProjectID w) as [P | e' | m]; split; try discriminate; auto.
  - intros P ->. reflexivity.
Qed.

Lemma ServiceAccountID_env_witness :
  ServiceAccountID (env_world {[ "GCLOUD_SERVICE_ACCOUNT" := "not an e-mail";
                                "GCLOUD_PROJECT" := "p" ]})
  = OK "projects/p/serviceAccounts/not an e-mail".
Proof.
  destruct (ServiceAccountID_env
              (env_world {[ "GCLOUD_SERVICE_ACCOUNT" := "not an e-mail";
                            "GCLOUD_PROJECT" := "p" ]}) eq_refl) as [_ Hok].
  rewrite (Hok "p"); vm_compute; reflexivity.
Defined.

End identity_more.

Section attribute_more.
Import strings metadata metadata_spec coverage_spec.

Lemma Getenv_setenv_eq (w : World) (key value : string) :
  Getenv (setenv key value w) key = value.
Proof. unfold Getenv, setenv. cbn [environ]. now rewrite lookup_insert_eq. Qed.

Lemma Getenv_setenv_ne (w : World) (key key' value : string) :
  key <> key' -> Getenv (setenv key value w) key' = Getenv w key'.
Proof. intros H. unfold Getenv, setenv. cbn [environ]. now rewrite lookup_insert_ne. Qed.

Lemma INSTANCE_not_PROJECT (k k' : string) : "INSTANCE_" +:+ k <> "PROJECT_" +:+ k'.
Proof. discriminate. Qed.

(** X19: outside the managed environment [GetInstanceAttribute] and
    [GetProjectAttribute] never fail; they read the variable named
    [INSTANCE_] or [PROJECT_] followed by the key as it is given.  So a
    value set for one key is read back for that key, is not seen under
    another key nor by the other function, and an absent variable reads as
    the empty string.  [Region] and [Zone] read [INSTANCE_REGION] and
    [INSTANCE_ZONE], the variables of the instance attributes [REGION] and
    [ZONE]. *)
Theorem attributes_env (w : World) (key value : string) :
  OnGCE w = false ->
  GetInstanceAttribute (setenv ("INSTANCE_" +:+ key) value w) key = OK value /\
  GetProjectAttribute (setenv ("PROJECT_" +:+ key) value w) key = OK value /\
  (forall key', key' <> key ->
     GetInstanceAttribute (setenv ("INSTANCE_" +:+ key) value w) key'
     = GetInstanceAttribute w key' /\
     GetProjectAttribute (setenv ("PROJECT_" +:+ key) value w) key'
     = GetProjectAttribute w key') /\
  (forall key',
     GetProjectAttribute (setenv ("INSTANCE_" +:+ key) value w) key'
     = GetProjectAttribute w key' /\
     GetInstanceAttribute (setenv ("PROJECT_" +:+ key) value w) key'
     = GetInstanceAttribute w key') /\
  (environ w !! ("INSTANCE_" +:+ key) = None -> GetInstanceAttribute w key = OK "") /\
  (environ w !! ("PROJECT_" +:+ key) = None -> GetProjectAttribute w key = OK "") /\
  Region w = GetInstanceAttribute w "REGION" /\
  Zone w = GetInstanceAttribute w "ZONE".
Proof.
  intros Hoff.
  unfold GetInstanceAttribute, GetProjectAttribute, Region, Zone. cbn [OnGCE setenv].
  rewrite Hoff. cbn [negb].
  fold (setenv ("INSTANCE_" +:+ key) value w). fold (setenv ("PROJECT_" +:+ key) value w).
  split; [now rewrite Getenv_setenv_eq |].
  split; [now rewrite Getenv_setenv_eq |].
  split; [| split; [| split; [| split; [| split]]]].
  - intros key' Hne. split; rewrite Getenv_setenv_ne; try reflexivity.
    + intros H. apply append_inv_head in H. congruence.
    + intros H. apply append_inv_head in H. congruence.
  - intros key'. split; rewrite Getenv_setenv_ne; try reflexivity.
    + apply INSTANCE_not_PROJECT.
    + intros H. symmetry in H. revert H. apply INSTANCE_not_PROJECT.
  - intros H. unfold Getenv. now rewrite H.
  - intros H. unfold Getenv. now rewrite H.
  - reflexivity.
  - reflexivity.
Qed.

Lemma attributes_env_witness :
  GetInstanceAttribute (setenv "INSTANCE_color" "blue" (env_world ∅)) "color" = OK "blue" /\
  GetInstanceAttribute (setenv "INSTANCE_color" "blue" (env_world ∅)) "COLOR" = OK "" /\
  GetProjectAttribute (setenv "INSTANCE_color" "blue" (env_world ∅)) "color" = OK "".
Proof.
  destruct (attributes_env (env_world ∅) "color" "blue" eq_refl)
    as (H1 & _ & H2 & H3 & _).
  split; [exact H1 |]. split.
  - destruct (H2 "COLOR") as [H2' _]; [discriminate |].
    refine (eq_trans H2' _). vm_compute. reflexivity.
  - destruct (H3 "color") as [H3' _].
    refine (eq_trans H3' _). vm_compute. reflexivity.
Defined.

End attribute_more.
